(** * Wallet ledger, PayPal payout adapter and withdrawal reconciliation

    A shallow embedding of [src/wallet/wallet.service.ts] and
    [src/wallet/services/paypal.service.ts].

    Modelling conventions.

    - Monetary amounts (JavaScript [number]) are exact integers [Z]: rounding
      of binary floating point is outside this development.
    - The two TypeORM repositories are finite maps from the primary key to
      the row: wallets are keyed by [creatorId] (one wallet per creator),
      withdrawals by their generated numeric id.  An in-memory entity is the
      pair of its key and its row; [save] writes the row under the key.
    - A nullable column or an optional JSON field is an [option]; JavaScript
      truthiness of such a string field is [truthy].
    - Case conversion is the ASCII one; bytes outside [A-Z]/[a-z] are kept.
    - The PayPal SDK client is an oracle [Client]: it answers a request as a
      function of everything that happened before (the trace).  Every
      [client.execute], every repository [save] and every [console] line of
      the wallet service is appended to the trace of the state, in order.
      The [Logger] lines of the PayPal service and the [createdAt] timestamp
      are not represented; the time-derived sender ids of a payout request
      are left out of the request.
    - Each service method runs to completion before the next starts. *)

From stdpp Require Import gmap strings list fin_maps pretty.
From Stdlib Require Import ZArith Lia Ascii.
From Stdlib Require PrimFloat.

Set Warnings "-inexact-float".

Local Open Scope string_scope.
Local Open Scope list_scope.
Local Open Scope Z_scope.

(** ** Strings *)

Definition lower_ascii (c : ascii) : ascii :=
  let n := N_of_ascii c in
  if ((65 <=? n) && (n <=? 90))%N then ascii_of_N (n + 32) else c.

Definition upper_ascii (c : ascii) : ascii :=
  let n := N_of_ascii c in
  if ((97 <=? n) && (n <=? 122))%N then ascii_of_N (n - 32) else c.

Fixpoint toLowerCase (s : string) : string :=
  match s with
  | EmptyString => EmptyString
  | String c r => String (lower_ascii c) (toLowerCase r)
  end.

Fixpoint toUpperCase (s : string) : string :=
  match s with
  | EmptyString => EmptyString
  | String c r => String (upper_ascii c) (toUpperCase r)
  end.

(** [if (x)] on an optional string: the string when it is present and not
    empty. *)
Definition truthy (o : option string) : option string :=
  match o with
  | Some s => if String.eqb s "" then None else Some s
  | None => None
  end.

(** [x || d] on an optional string. *)
Definition or_else (o : option string) (d : string) : string :=
  match truthy o with Some s => s | None => d end.

(** A template literal prints an absent value as [undefined]. *)
Definition interpolate (o : option string) : string := default "undefined" o.

(** [switch]/[===] against a group of string literals. *)
Definition one_of (s : string) (l : list string) : bool :=
  existsb (String.eqb s) l.

(** ** Data model *)

Inductive Status := PENDING | PROCESSING | COMPLETED | FAILED.

Global Instance Status_eq_dec : EqDecision Status.
Proof. solve_decision. Defined.

Record Wallet := mkWallet {
  balance : Z;
  paypalEmail : option string;
  paypalVerified : bool
}.

Record Withdrawal := mkWithdrawal {
  creatorId : string;
  amount : Z;
  status : Status;
  wd_paypalEmail : option string;
  paypalBatchId : option string;
  paypalPayoutItemId : option string;
  failureReason : option string
}.

Global Instance Wallet_eq_dec : EqDecision Wallet.
Proof. solve_decision. Defined.

Global Instance Withdrawal_eq_dec : EqDecision Withdrawal.
Proof. solve_decision. Defined.

(** The only exception class the two services throw. *)
Inductive Exn := BadRequestException (message : string).

Definition exn_message (e : Exn) : string :=
  match e with BadRequestException m => m end.

(** ** The PayPal SDK as seen by the adapter *)

Inductive Request :=
| PayoutsPostRequest (receiver : string) (value : Z) (currency : string)
| PayoutsGetRequest (payoutBatchId : string)
| PayoutsItemGetRequest (payoutItemId : string).

(** What [client.execute] throws. *)
Record SdkError := mkSdkError {
  statusCode : option nat;
  sdk_message : option string
}.

Record BatchHeader := mkBatchHeader {
  payout_batch_id : option string;
  batch_status : option string
}.

(** An element of [items]; [errors] is flattened to [errors.message].  The
    same record is used before and after normalisation, which only rewrites
    [transaction_status]. *)
Record Item := mkItem {
  payout_item_id : option string;
  transaction_status : option string;
  errors_message : option string
}.

(** [response.result], with the fields the adapter reads. *)
Record Result := mkResult {
  batch_header : option BatchHeader;
  items : option (list Item);
  r_payout_item_id : option string;
  r_transaction_status : option string;
  r_errors_message : option string
}.

Record Response := mkResponse { result : option Result }.

(** ** Console lines of the wallet service *)

Inductive LogLine :=
| LogStarting                                   (* Starting withdrawal status update... *)
| LogFound (n : nat)                            (* Found n processing withdrawals *)
| LogChecking (id : nat) (batch : string)       (* Checking status for withdrawal id, batch: b *)
| LogBatchStatus (st : string)                  (* Batch status: st *)
| LogItemsCount (n : nat)                       (* Items count: n *)
| LogItem (st : option string) (item : option string)  (* Item status: st, Item ID: item *)
| LogIndividual (st : string)                   (* Individual item status: st *)
| LogUpdating (id : nat) (st : option string)   (* Updating withdrawal id with item status: st *)
| LogCompleted (id : nat)                       (* Withdrawal id marked as COMPLETED *)
| LogFailedRefunded (id : nat)                  (* Withdrawal id marked as FAILED and refunded *)
| LogRefunded (amt : Z) (creator : string)      (* Refunded $amt to wallet for creator c *)
| ErrItemStatus (item : string) (e : Exn)       (* console.error: Failed to get individual item status *)
| ErrUpdate (id : nat) (e : Exn)                (* console.error: Failed to update withdrawal id *)
| LogUpdateCompleted.                           (* Withdrawal status update completed *)

(** ** Effects: the trace and the state *)

Inductive Event :=
| Execute (req : Request)
| SaveWallet (creator : string) (w : Wallet)
| SaveWithdrawal (id : nat) (w : Withdrawal)
| Console (l : LogLine).

(** [deposits] is the ledger of credits made to wallets, newest first; it
    is only written by [deposit] below and only read by the balance
    invariant. *)
Record State := mkState {
  wallets : gmap string Wallet;
  withdrawals : gmap nat Withdrawal;
  deposits : list (string * Z);
  trace : list Event
}.

Definition Client : Type := list Event → Request → SdkError + Response.

(** State and exception monad of a service method.  A thrown exception keeps
    the writes made so far: nothing is wrapped in a transaction. *)
Definition M (A : Type) : Type := State → (Exn + A) * State.

Global Instance M_ret : MRet M := λ A a s, (inr a, s).

Global Instance M_bind : MBind M := λ A B f m s,
  match m s with
  | (inl e, s') => (inl e, s')
  | (inr a, s') => f a s'
  end.

Definition throw {A} (e : Exn) : M A := λ s, (inl e, s).

Definition try_catch {A} (m : M A) (handler : Exn → M A) : M A := λ s,
  match m s with
  | (inl e, s') => handler e s'
  | (inr a, s') => (inr a, s')
  end.

Definition emit (e : Event) : M unit := λ s,
  (inr tt, mkState (wallets s) (withdrawals s) (deposits s) (trace s ++ [e])).

Definition console_log (l : LogLine) : M unit := emit (Console l).

(** ** Repositories *)

Definition walletRepository_findOne (creator : string) : M (option Wallet) :=
  λ s, (inr (wallets s !! creator), s).

Definition walletRepository_save (creator : string) (w : Wallet) : M unit :=
  λ s, (inr tt, mkState (<[creator := w]> (wallets s)) (withdrawals s)
                        (deposits s) (trace s ++ [SaveWallet creator w])).

Definition withdrawalRepository_findOne (id : nat) : M (option Withdrawal) :=
  λ s, (inr (withdrawals s !! id), s).

Definition withdrawalRepository_find (st : Status) : M (list (nat * Withdrawal)) :=
  λ s, (inr (map_to_list (filter (λ kv, status kv.2 = st) (withdrawals s))), s).

Definition withdrawalRepository_save (id : nat) (w : Withdrawal) : M unit :=
  λ s, (inr tt, mkState (wallets s) (<[id := w]> (withdrawals s))
                        (deposits s) (trace s ++ [SaveWithdrawal id w])).

(** Saving a freshly created entity: the database generates an unused id. *)
Definition withdrawalRepository_insert (w : Withdrawal) : M (nat * Withdrawal) :=
  λ s, let id := fresh (dom (withdrawals s)) in
       (inr (id, w), mkState (wallets s) (<[id := w]> (withdrawals s))
                             (deposits s) (trace s ++ [SaveWithdrawal id w])).

(** ** PayPalService *)

Definition successFamily : list string := ["success"; "completed"; "claimed"].
Definition failedFamily : list string := ["failed"; "returned"; "refunded"; "blocked"].
Definition pendingFamily : list string := ["pending"; "unclaimed"].

Definition normalizeTransactionStatus (status : option string) : string :=
  match truthy status with
  | None => "UNKNOWN"
  | Some status =>
      let normalizedStatus := toLowerCase status in
      if one_of normalizedStatus successFamily then "SUCCESS"
      else if one_of normalizedStatus failedFamily then "FAILED"
      else if one_of normalizedStatus pendingFamily then "PENDING"
      else toUpperCase status
  end.

Record PayoutResult := mkPayoutResult {
  pr_batchId : option string;
  pr_status : option string;
  pr_payoutItemId : option string
}.

Record PayoutStatus := mkPayoutStatus {
  ps_batchId : string;
  ps_status : string;
  ps_items : list Item
}.

Record ItemStatus := mkItemStatus {
  is_itemId : option string;
  is_status : string;
  is_errors_message : option string
}.

Definition truthy_code (c : option nat) : option nat :=
  match c with
  | Some (S n) => Some (S n)
  | _ => None
  end.

Section Services.

Variable client : Client.

Definition client_execute (req : Request) : M (SdkError + Response) := λ s,
  (inr (client (trace s) req),
   mkState (wallets s) (withdrawals s) (deposits s) (trace s ++ [Execute req])).

Definition sendPayout_error (error : SdkError) : Exn :=
  match truthy_code (statusCode error) with
  | Some code =>
      BadRequestException
        ("PayPal payout failed (" +:+ pretty code +:+ "): "
           +:+ interpolate (sdk_message error))
  | None =>
      BadRequestException
        ("PayPal payout failed: " +:+ or_else (sdk_message error) "Unknown error")
  end.

Definition sendPayout (recipientEmail : string) (amount : Z) (currency : string)
  : M PayoutResult :=
  response ← client_execute (PayoutsPostRequest recipientEmail amount currency);
  match response with
  | inl error => throw (sendPayout_error error)
  | inr response =>
      match result response ≫= batch_header with
      | None =>
          throw (sendPayout_error
                   (mkSdkError None (Some "Invalid PayPal response structure")))
      | Some header =>
          let payoutItemId :=
            match result response ≫= items with
            | Some (item :: _) => payout_item_id item
            | _ => None
            end in
          mret (mkPayoutResult (payout_batch_id header) (batch_status header)
                               payoutItemId)
      end
  end.

Definition getPayoutStatus_error (error : SdkError) : Exn :=
  match truthy_code (statusCode error) with
  | Some code =>
      BadRequestException
        ("Failed to get payout status (" +:+ pretty code +:+ "): "
           +:+ interpolate (sdk_message error))
  | None =>
      BadRequestException
        ("Failed to get payout status: "
           +:+ or_else (sdk_message error) "Unknown error")
  end.

Definition normalizeItem (item : Item) : Item :=
  mkItem (payout_item_id item)
         (Some (normalizeTransactionStatus (transaction_status item)))
         (errors_message item).

Definition getPayoutStatus (payoutBatchId : string) : M PayoutStatus :=
  response ← client_execute (PayoutsGetRequest payoutBatchId);
  match response with
  | inl error => throw (getPayoutStatus_error error)
  | inr response =>
      let batchHeader := result response ≫= batch_header in
      let items := default [] (result response ≫= items) in
      let batchStatus := batchHeader ≫= batch_status in
      mret (mkPayoutStatus
              (or_else (batchHeader ≫= payout_batch_id) payoutBatchId)
              (or_else batchStatus "UNKNOWN")
              (map normalizeItem items))
  end.

Definition getPayoutItemStatus (payoutItemId : string) : M ItemStatus :=
  response ← client_execute (PayoutsItemGetRequest payoutItemId);
  match response with
  | inl error =>
      throw (BadRequestException
               ("Failed to get payout item status: "
                  +:+ or_else (sdk_message error) "Unknown error"))
  | inr response =>
      mret (mkItemStatus
              (result response ≫= r_payout_item_id)
              (normalizeTransactionStatus (result response ≫= r_transaction_status))
              (result response ≫= r_errors_message))
  end.

End Services.

(** ** WalletService *)

Definition set_balance (w : Wallet) (b : Z) : Wallet :=
  mkWallet b (paypalEmail w) (paypalVerified w).

Definition set_status (w : Withdrawal) (st : Status) : Withdrawal :=
  mkWithdrawal (creatorId w) (amount w) st (wd_paypalEmail w)
               (paypalBatchId w) (paypalPayoutItemId w) (failureReason w).

Definition set_failureReason (w : Withdrawal) (r : string) : Withdrawal :=
  mkWithdrawal (creatorId w) (amount w) (status w) (wd_paypalEmail w)
               (paypalBatchId w) (paypalPayoutItemId w) (Some r).

Definition set_payout (w : Withdrawal) (batch item : option string) : Withdrawal :=
  mkWithdrawal (creatorId w) (amount w) (status w) (wd_paypalEmail w)
               batch item (failureReason w).

(** [status === 'a' || status === 'b' || ...] on a possibly absent string. *)
Definition status_in (st : option string) (l : list string) : bool :=
  match st with Some s => one_of s l | None => false end.

Inductive ForceCheckResult :=
| NotProcessing (message : string)
| StatusCheckCompleted (message : string) (withdrawal : nat * Withdrawal).

Definition submitted_message : string :=
  "Withdrawal request submitted successfully. Processing via PayPal.".

Section WalletService.

Variable client : Client.

Definition createWallet (creatorId : string) : M Wallet :=
  existingWallet ← walletRepository_findOne creatorId;
  match existingWallet with
  | Some _ => throw (BadRequestException "Wallet already exists for this creator.")
  | None =>
      let newWallet := mkWallet 0 None false in
      walletRepository_save creatorId newWallet;;
      mret newWallet
  end.

Definition linkPayPal (creatorId paypalEmail : string) : M Wallet :=
  wallet ← walletRepository_findOne creatorId;
  match wallet with
  | None => throw (BadRequestException "Wallet not found")
  | Some wallet =>
      let wallet := mkWallet (balance wallet) (Some paypalEmail) true in
      walletRepository_save creatorId wallet;;
      mret wallet
  end.

Definition requestWithdrawal (creatorId : string) (amount : Z)
  : M (nat * Withdrawal * string) :=
  if (amount <=? 0)%Z then throw (BadRequestException "Invalid withdrawal amount")
  else if (amount <? 5)%Z then
    throw (BadRequestException "Minimum withdrawal amount is $5")
  else
    wallet ← walletRepository_findOne creatorId;
    match wallet with
    | None => throw (BadRequestException "Wallet not found")
    | Some wallet =>
        match truthy (paypalEmail wallet) with
        | None =>
            throw (BadRequestException "Please link your PayPal account first")
        | Some email =>
            if (balance wallet <? amount)%Z then
              throw (BadRequestException "Insufficient balance")
            else
              let withdrawal :=
                mkWithdrawal creatorId amount PENDING (paypalEmail wallet)
                             None None None in
              let wallet := set_balance wallet (balance wallet - amount) in
              walletRepository_save creatorId wallet;;
              savedWithdrawal ← withdrawalRepository_insert withdrawal;
              try_catch
                (payoutResult ← sendPayout client email amount "USD";
                 let saved :=
                   set_status
                     (set_payout savedWithdrawal.2 (pr_batchId payoutResult)
                                 (pr_payoutItemId payoutResult))
                     PROCESSING in
                 withdrawalRepository_save savedWithdrawal.1 saved;;
                 mret (savedWithdrawal.1, saved, submitted_message))
                (λ error,
                   let wallet := set_balance wallet (balance wallet + amount) in
                   walletRepository_save creatorId wallet;;
                   let saved :=
                     set_failureReason (set_status savedWithdrawal.2 FAILED)
                                       (exn_message error) in
                   withdrawalRepository_save savedWithdrawal.1 saved;;
                   throw (BadRequestException
                            ("Withdrawal failed: " +:+ exn_message error)))
        end
    end.

Definition refundToWallet (withdrawal : nat * Withdrawal) : M unit :=
  wallet ← walletRepository_findOne (creatorId withdrawal.2);
  match wallet with
  | Some wallet =>
      walletRepository_save (creatorId withdrawal.2)
        (set_balance wallet (balance wallet + amount withdrawal.2));;
      console_log (LogRefunded (amount withdrawal.2) (creatorId withdrawal.2))
  | None => mret tt
  end.

(** The entity object is mutated in place by the source; here the updated
    object is returned to the caller. *)
Definition updateWithdrawalFromItem (withdrawal : nat * Withdrawal) (item : Item)
  : M (nat * Withdrawal) :=
  let status := toLowerCase <$> transaction_status item in
  console_log (LogUpdating withdrawal.1 status);;
  if status_in status successFamily then
    let withdrawal := (withdrawal.1, set_status withdrawal.2 COMPLETED) in
    withdrawalRepository_save withdrawal.1 withdrawal.2;;
    console_log (LogCompleted withdrawal.1);;
    mret withdrawal
  else if status_in status failedFamily then
    let withdrawal :=
      (withdrawal.1,
       set_failureReason (set_status withdrawal.2 FAILED)
         (or_else (errors_message item)
                  ("PayPal transaction " +:+ interpolate status))) in
    refundToWallet withdrawal;;
    withdrawalRepository_save withdrawal.1 withdrawal.2;;
    console_log (LogFailedRefunded withdrawal.1);;
    mret withdrawal
  else mret withdrawal.

(** The inner [for (const item of payoutStatus.items)] of the scheduled
    update, [count] being [payoutStatus.items.length]. *)
Fixpoint updateWithdrawalStatuses_items (withdrawal : nat * Withdrawal)
    (count : nat) (items : list Item) : M (nat * Withdrawal) :=
  match items with
  | [] => mret withdrawal
  | item :: rest =>
      console_log (LogItem (transaction_status item) (payout_item_id item));;
      match truthy (paypalPayoutItemId withdrawal.2) with
      | Some itemId =>
          if bool_decide (payout_item_id item = Some itemId) then
            updateWithdrawalFromItem withdrawal item
          else updateWithdrawalStatuses_items withdrawal count rest
      | None =>
          if Nat.eqb count 1 then updateWithdrawalFromItem withdrawal item
          else updateWithdrawalStatuses_items withdrawal count rest
      end
  end.

(** The second check of the scheduled update, against the item endpoint. *)
Definition updateWithdrawalStatuses_item (withdrawal : nat * Withdrawal) : M unit :=
  match truthy (paypalPayoutItemId withdrawal.2) with
  | Some itemId =>
      if bool_decide (status withdrawal.2 = PROCESSING) then
        try_catch
          (itemStatus ← getPayoutItemStatus client itemId;
           console_log (LogIndividual (is_status itemStatus));;
           if String.eqb (is_status itemStatus) "SUCCESS" then
             let withdrawal := (withdrawal.1, set_status withdrawal.2 COMPLETED) in
             withdrawalRepository_save withdrawal.1 withdrawal.2;;
             console_log (LogCompleted withdrawal.1)
           else if String.eqb (is_status itemStatus) "FAILED" then
             let withdrawal :=
               (withdrawal.1,
                set_failureReason (set_status withdrawal.2 FAILED)
                  (or_else (is_errors_message itemStatus)
                           "PayPal transaction failed")) in
             refundToWallet withdrawal;;
             withdrawalRepository_save withdrawal.1 withdrawal.2;;
             console_log (LogFailedRefunded withdrawal.1)
           else mret tt)
          (λ itemError, console_log (ErrItemStatus itemId itemError))
      else mret tt
  | None => mret tt
  end.

(** The body of [for (const withdrawal of processingWithdrawals)]. *)
Definition updateWithdrawalStatuses_body (withdrawal : nat * Withdrawal) : M unit :=
  match truthy (paypalBatchId withdrawal.2) with
  | Some batchId =>
      try_catch
        (console_log (LogChecking withdrawal.1 batchId);;
         payoutStatus ← getPayoutStatus client batchId;
         console_log (LogBatchStatus (ps_status payoutStatus));;
         console_log (LogItemsCount (length (ps_items payoutStatus)));;
         withdrawal ←
           updateWithdrawalStatuses_items withdrawal
             (length (ps_items payoutStatus)) (ps_items payoutStatus);
         updateWithdrawalStatuses_item withdrawal)
        (λ error, console_log (ErrUpdate withdrawal.1 error))
  | None => mret tt
  end.

(** [for (const x of xs) body(x)]: an exception leaves the loop. *)
Fixpoint for_of {A} (xs : list A) (body : A → M unit) : M unit :=
  match xs with
  | [] => mret tt
  | x :: rest => body x;; for_of rest body
  end.

Definition updateWithdrawalStatuses : M unit :=
  console_log LogStarting;;
  processingWithdrawals ← withdrawalRepository_find PROCESSING;
  console_log (LogFound (length processingWithdrawals));;
  for_of processingWithdrawals updateWithdrawalStatuses_body;;
  console_log LogUpdateCompleted.

Definition forceCheckWithdrawal (withdrawalId : nat) : M ForceCheckResult :=
  withdrawal ← withdrawalRepository_findOne withdrawalId;
  match withdrawal with
  | None => throw (BadRequestException "Withdrawal not found")
  | Some withdrawal =>
      if negb (bool_decide (status withdrawal = PROCESSING)) then
        mret (NotProcessing "Withdrawal is not in processing status")
      else
        match truthy (paypalBatchId withdrawal) with
        | None => throw (BadRequestException "No PayPal batch ID found")
        | Some batchId =>
            try_catch
              (payoutStatus ← getPayoutStatus client batchId;
               withdrawal ←
                 match ps_items payoutStatus with
                 | item :: _ =>
                     updateWithdrawalFromItem (withdrawalId, withdrawal) item
                 | [] => mret (withdrawalId, withdrawal)
                 end;
               mret (StatusCheckCompleted "Status check completed" withdrawal))
              (λ error,
                 throw (BadRequestException
                          ("Failed to check withdrawal status: "
                             +:+ exn_message error)))
        end
  end.

(** Modelled from the spec: the deposit (credit) operation on a wallet, which
    the invariant of the ledger counts but no source file under [src/]
    performs.  A deposit adds the amount to the balance of an existing wallet
    and is recorded in the ledger of deposits. *)
Definition deposit (creatorId : string) (amount : Z) : M unit := λ s,
  match wallets s !! creatorId with
  | None => (inl (BadRequestException "Wallet not found"), s)
  | Some wallet =>
      (inr tt,
       mkState (<[creatorId := set_balance wallet (balance wallet + amount)]>
                  (wallets s))
               (withdrawals s) ((creatorId, amount) :: deposits s)
               (trace s
                  ++ [SaveWallet creatorId
                        (set_balance wallet (balance wallet + amount))]))
  end.

End WalletService.

(** ** Sequences of operations *)

Inductive Op :=
| CreateWallet (creatorId : string)
| LinkPayPal (creatorId paypalEmail : string)
| Deposit (creatorId : string) (amount : Z)
| RequestWithdrawal (creatorId : string) (amount : Z)
| UpdateWithdrawalStatuses
| ForceCheckWithdrawal (withdrawalId : nat).

Definition ignore {A} (m : M A) : M unit := m ≫= λ _, mret tt.

Definition perform (client : Client) (op : Op) : M unit :=
  match op with
  | CreateWallet c => ignore (createWallet c)
  | LinkPayPal c e => ignore (linkPayPal c e)
  | Deposit c a => deposit c a
  | RequestWithdrawal c a => ignore (requestWithdrawal client c a)
  | UpdateWithdrawalStatuses => updateWithdrawalStatuses client
  | ForceCheckWithdrawal id => ignore (forceCheckWithdrawal client id)
  end.

(** The state after an operation, whether it returned or threw. *)
Definition step (client : Client) (s : State) (op : Op) : State :=
  (perform client op s).2.

Definition run (client : Client) (ops : list Op) (s : State) : State :=
  fold_left (step client) ops s.

Definition init : State := mkState ∅ ∅ [] [].

(** ** What a reconciliation step does to the ledger *)

(** The three things a status check can do to a withdrawal. *)
Inductive Outcome := Unchanged | Completed | Failed (reason : string).

Definition settled (o : Outcome) (w : Withdrawal) : Withdrawal :=
  match o with
  | Unchanged => w
  | Completed => set_status w COMPLETED
  | Failed r => set_failureReason (set_status w FAILED) r
  end.

(** The wallet table after [refundToWallet]: the creator's wallet, when there
    is one, gets the amount back. *)
Definition credit (creator : string) (a : Z) (ws : gmap string Wallet)
  : gmap string Wallet :=
  match ws !! creator with
  | Some w => <[creator := set_balance w (balance w + a)]> ws
  | None => ws
  end.

(** The state after a status check with outcome [o] on the entity [wd], the
    events [evs] having been appended to the trace. *)
Definition apply_outcome (o : Outcome) (wd : nat * Withdrawal)
    (evs : list Event) (s : State) : State :=
  match o with
  | Unchanged => mkState (wallets s) (withdrawals s) (deposits s) (trace s ++ evs)
  | Completed =>
      mkState (wallets s) (<[wd.1 := settled o wd.2]> (withdrawals s))
              (deposits s) (trace s ++ evs)
  | Failed _ =>
      mkState (credit (creatorId wd.2) (amount wd.2) (wallets s))
              (<[wd.1 := settled o wd.2]> (withdrawals s))
              (deposits s) (trace s ++ evs)
  end.

Definition refund_events (wd : nat * Withdrawal) (s : State) : list Event :=
  match wallets s !! creatorId wd.2 with
  | Some w =>
      [SaveWallet (creatorId wd.2) (set_balance w (balance w + amount wd.2));
       Console (LogRefunded (amount wd.2) (creatorId wd.2))]
  | None => []
  end.

(** The writes and console lines of a status change, in order. *)
Definition outcome_events (o : Outcome) (wd : nat * Withdrawal) (s : State)
  : list Event :=
  match o with
  | Unchanged => []
  | Completed =>
      [SaveWithdrawal wd.1 (settled o wd.2); Console (LogCompleted wd.1)]
  | Failed _ =>
      refund_events wd s
        ++ [SaveWithdrawal wd.1 (settled o wd.2); Console (LogFailedRefunded wd.1)]
  end.

(** The outcome [updateWithdrawalFromItem] reads off a batch item. *)
Definition item_outcome (item : Item) : Outcome :=
  let status := toLowerCase <$> transaction_status item in
  if status_in status successFamily then Completed
  else if status_in status failedFamily then
    Failed (or_else (errors_message item)
                    ("PayPal transaction " +:+ interpolate status))
  else Unchanged.

(** The outcome the scheduled update reads off the item endpoint. *)
Definition item_status_outcome (st : ItemStatus) : Outcome :=
  if String.eqb (is_status st) "SUCCESS" then Completed
  else if String.eqb (is_status st) "FAILED" then
    Failed (or_else (is_errors_message st) "PayPal transaction failed")
  else Unchanged.

(** The batch item the scheduled update applies, in the words of the
    specification: the item whose id is the stored item id, or, when no item
    id is stored and the batch has exactly one item, that item. *)
Definition matchingItem (w : Withdrawal) (items : list Item) : option Item :=
  match truthy (paypalPayoutItemId w) with
  | Some itemId =>
      List.find (λ item, bool_decide (payout_item_id item = Some itemId)) items
  | None =>
      match items with
      | [item] => Some item
      | _ => None
      end
  end.

Definition withdrawal_save (e : Event) : option (nat * Withdrawal) :=
  match e with
  | SaveWithdrawal id w => Some (id, w)
  | _ => None
  end.

(** The withdrawal rows written by a run of events, in order. *)
Definition withdrawal_saves (evs : list Event) : list (nat * Withdrawal) :=
  omap withdrawal_save evs.

Definition outcome_saves (o : Outcome) (wd : nat * Withdrawal)
  : list (nat * Withdrawal) :=
  match o with
  | Unchanged => []
  | _ => [(wd.1, settled o wd.2)]
  end.

(** ** The scheduled update, read as a function of the provider's answers *)

Definition called (req : Request) (s : State) : State :=
  mkState (wallets s) (withdrawals s) (deposits s) (trace s ++ [Execute req]).

(** What [getPayoutStatus] makes of the SDK's answer. *)
Definition payoutStatus_of (payoutBatchId : string) (r : SdkError + Response)
  : Exn + PayoutStatus :=
  match r with
  | inl error => inl (getPayoutStatus_error error)
  | inr response =>
      let batchHeader := result response ≫= batch_header in
      inr (mkPayoutStatus
             (or_else (batchHeader ≫= payout_batch_id) payoutBatchId)
             (or_else (batchHeader ≫= batch_status) "UNKNOWN")
             (map normalizeItem (default [] (result response ≫= items))))
  end.

(** What [getPayoutItemStatus] makes of the SDK's answer. *)
Definition itemStatus_of (r : SdkError + Response) : Exn + ItemStatus :=
  match r with
  | inl error =>
      inl (BadRequestException
             ("Failed to get payout item status: "
                +:+ or_else (sdk_message error) "Unknown error"))
  | inr response =>
      inr (mkItemStatus
             (result response ≫= r_payout_item_id)
             (normalizeTransactionStatus (result response ≫= r_transaction_status))
             (result response ≫= r_errors_message))
  end.

(** What [sendPayout] makes of the SDK's answer. *)
Definition payoutResult_of (r : SdkError + Response) : Exn + PayoutResult :=
  match r with
  | inl error => inl (sendPayout_error error)
  | inr response =>
      match result response ≫= batch_header with
      | None =>
          inl (sendPayout_error
                 (mkSdkError None (Some "Invalid PayPal response structure")))
      | Some header =>
          inr (mkPayoutResult (payout_batch_id header) (batch_status header)
                 match result response ≫= items with
                 | Some (item :: _) => payout_item_id item
                 | _ => None
                 end)
      end
  end.

(** The test the item loop applies to each item. *)
Definition scan_pred (w : Withdrawal) (count : nat) (item : Item) : bool :=
  match truthy (paypalPayoutItemId w) with
  | Some itemId => bool_decide (payout_item_id item = Some itemId)
  | None => Nat.eqb count 1
  end.

Fixpoint scan_lines (w : Withdrawal) (count : nat) (items : list Item)
  : list Event :=
  match items with
  | [] => []
  | item :: rest =>
      Console (LogItem (transaction_status item) (payout_item_id item))
        :: (if scan_pred w count item then [] else scan_lines w count rest)
  end.

Definition scan_outcome (w : Withdrawal) (count : nat) (items : list Item)
  : Outcome :=
  from_option item_outcome Unchanged (List.find (scan_pred w count) items).

Definition scan_events (wd : nat * Withdrawal) (count : nat) (items : list Item)
    (s : State) : list Event :=
  (scan_lines wd.2 count items
     ++ match List.find (scan_pred wd.2 count) items with
        | Some item =>
            Console (LogUpdating wd.1 (toLowerCase <$> transaction_status item))
              :: outcome_events (item_outcome item) wd s
        | None => []
        end)%list.

(** Outcome and events of the second check, against the item endpoint. *)
Definition item_stage (client : Client) (wd : nat * Withdrawal) (s : State)
  : Outcome * list Event :=
  match truthy (paypalPayoutItemId wd.2) with
  | Some itemId =>
      if bool_decide (status wd.2 = PROCESSING) then
        match itemStatus_of (client (trace s) (PayoutsItemGetRequest itemId)) with
        | inl e =>
            (Unchanged,
             [Execute (PayoutsItemGetRequest itemId);
              Console (ErrItemStatus itemId e)])
        | inr st =>
            (item_status_outcome st,
             Execute (PayoutsItemGetRequest itemId)
               :: Console (LogIndividual (is_status st))
               :: outcome_events (item_status_outcome st) wd s)
        end
      else (Unchanged, [])
  | None => (Unchanged, [])
  end.

(** Outcome and events of one iteration of the scheduled update. *)
Definition body_result (client : Client) (wd : nat * Withdrawal) (s : State)
  : Outcome * list Event :=
  match truthy (paypalBatchId wd.2) with
  | None => (Unchanged, [])
  | Some batchId =>
      let pre :=
        [Console (LogChecking wd.1 batchId); Execute (PayoutsGetRequest batchId)] in
      match payoutStatus_of batchId
              (client (trace s ++ [Console (LogChecking wd.1 batchId)])%list
                      (PayoutsGetRequest batchId)) with
      | inl e => (Unchanged, pre ++ [Console (ErrUpdate wd.1 e)])%list
      | inr ps =>
          let n := length (ps_items ps) in
          let evs :=
            (pre ++ [Console (LogBatchStatus (ps_status ps));
                     Console (LogItemsCount n)]
                 ++ scan_events wd n (ps_items ps) s)%list in
          match scan_outcome wd.2 n (ps_items ps) with
          | Unchanged =>
              let second := item_stage client wd (apply_outcome Unchanged wd evs s) in
              (second.1, (evs ++ second.2)%list)
          | o => (o, evs)
          end
      end
  end.

Definition logged (l : LogLine) (s : State) : State :=
  mkState (wallets s) (withdrawals s) (deposits s) (trace s ++ [Console l]).

(** The state after one iteration of the scheduled update. *)
Definition body_state (client : Client) (wd : nat * Withdrawal) (s : State)
  : State :=
  apply_outcome (body_result client wd s).1 wd (body_result client wd s).2 s.

(** The state after the iterations for a list of loaded entities. *)
Definition body_fold (client : Client) (l : list (nat * Withdrawal)) (s : State)
  : State :=
  fold_left (λ st wd, body_state client wd st) l s.

(** The entities the scheduled update loads. *)
Definition processingWithdrawals (s : State) : list (nat * Withdrawal) :=
  map_to_list (filter (λ kv, status kv.2 = PROCESSING) (withdrawals s)).

(** ** requestWithdrawal, read as a function of the provider's answer *)

(** The withdrawal row created by a request. *)
Definition new_withdrawal (c : string) (a : Z) (w : Wallet) : Withdrawal :=
  mkWithdrawal c a PENDING (paypalEmail w) None None None.

(** The trace at the moment the payout is submitted: the debited wallet and
    the PENDING row have been saved. *)
Definition submission_trace (c : string) (a : Z) (w : Wallet) (s : State)
  : list Event :=
  (trace s
     ++ [SaveWallet c (set_balance w (balance w - a));
         SaveWithdrawal (fresh (dom (withdrawals s))) (new_withdrawal c a w)])%list.

(** The state after a request that passed validation, according to what the
    adapter returned. *)
Definition submitted_state (c : string) (a : Z) (w : Wallet) (email : string)
    (r : Exn + PayoutResult) (s : State) : State :=
  let id := fresh (dom (withdrawals s)) in
  let req := PayoutsPostRequest email a "USD" in
  let debited := set_balance w (balance w - a) in
  match r with
  | inr payoutResult =>
      let saved :=
        set_status (set_payout (new_withdrawal c a w) (pr_batchId payoutResult)
                               (pr_payoutItemId payoutResult)) PROCESSING in
      mkState (<[c := debited]> (wallets s))
              (<[id := saved]> (<[id := new_withdrawal c a w]> (withdrawals s)))
              (deposits s)
              (submission_trace c a w s ++ [Execute req; SaveWithdrawal id saved])
  | inl error =>
      let restored := set_balance debited (balance debited + a) in
      let saved :=
        set_failureReason (set_status (new_withdrawal c a w) FAILED)
                          (exn_message error) in
      mkState (<[c := restored]> (<[c := debited]> (wallets s)))
              (<[id := saved]> (<[id := new_withdrawal c a w]> (withdrawals s)))
              (deposits s)
              (submission_trace c a w s
                 ++ [Execute req; SaveWallet c restored; SaveWithdrawal id saved])
  end.

(** The request passes the five validation tests. *)
Definition validated (c : string) (a : Z) (w : Wallet) (email : string)
    (s : State) : Prop :=
  5 ≤ a ∧ wallets s !! c = Some w ∧ truthy (paypalEmail w) = Some email
  ∧ a ≤ balance w.

(** The state in which the payout is submitted. *)
Definition submission_state (c : string) (a : Z) (w : Wallet) (s : State) : State :=
  mkState (<[c := set_balance w (balance w - a)]> (wallets s))
          (<[fresh (dom (withdrawals s)) := new_withdrawal c a w]> (withdrawals s))
          (deposits s) (submission_trace c a w s).

(** A client that rejects every request. *)
Definition rejecting_client : Client :=
  λ _ _, inl (mkSdkError (Some 422%nat) (Some "Unprocessable")).

(** A ledger with one linked wallet holding 100. *)
Definition alice_state : State :=
  mkState {[ "alice" := mkWallet 100 (Some "alice@example.org") true ]} ∅
          [("alice", 100)] [].


(** The tables of the ledger, without the trace. *)
Definition ledger (s : State)
  : gmap string Wallet * gmap nat Withdrawal * list (string * Z) :=
  (wallets s, withdrawals s, deposits s).

(** A withdrawal of 20 by alice in the given status. *)
Definition alice_withdrawal (st : Status) (batch item : option string)
  : Withdrawal :=
  mkWithdrawal "alice" 20 st (Some "alice@example.org") batch item None.

(** Alice after a submitted withdrawal of 20: balance 80, one PROCESSING row
    with batch B1 and payout item I2. *)
Definition processing_state : State :=
  mkState {[ "alice" := mkWallet 80 (Some "alice@example.org") true ]}
          {[ 1%nat := alice_withdrawal PROCESSING (Some "B1") (Some "I2") ]}
          [("alice", 100)] [].

(** A ledger with a COMPLETED row and a PROCESSING row without batch id. *)
Definition settled_state : State :=
  mkState {[ "alice" := mkWallet 60 (Some "alice@example.org") true ]}
          {[ 1%nat := alice_withdrawal COMPLETED (Some "B1") (Some "I1");
             2%nat := alice_withdrawal PROCESSING None None ]}
          [("alice", 100)] [].

Definition batch_response (its : list Item) : SdkError + Response :=
  inr (mkResponse
         (Some (mkResult (Some (mkBatchHeader (Some "B1") (Some "PROCESSING")))
                         (Some its) None None None))).

Definition item_response (id st : string) : SdkError + Response :=
  inr (mkResponse (Some (mkResult None None (Some id) (Some st) None))).

(** Batch B1 holds a failed item I1 followed by the pending item I2; the item
    endpoint reports I2 as pending. *)
Definition mixed_batch_client : Client := λ _ req,
  match req with
  | PayoutsGetRequest _ =>
      batch_response [mkItem (Some "I1") (Some "FAILED") None;
                      mkItem (Some "I2") (Some "PENDING") None]
  | PayoutsItemGetRequest id => item_response id "PENDING"
  | PayoutsPostRequest _ _ _ => inl (mkSdkError None None)
  end.

Definition is_wallet_save (e : Event) : bool :=
  match e with SaveWallet _ _ => true | _ => false end.

Definition is_error_line (e : Event) : bool :=
  match e with
  | Console (ErrItemStatus _ _) | Console (ErrUpdate _ _) => true
  | _ => false
  end.

(** Events that neither write a wallet nor report an error. *)
Definition quiet (e : Event) : Prop :=
  is_wallet_save e = false ∧ is_error_line e = false.



(** Both endpoints report item I2 as successful. *)
Definition success_client : Client := λ _ req,
  match req with
  | PayoutsGetRequest _ => batch_response [mkItem (Some "I2") (Some "SUCCESS") None]
  | PayoutsItemGetRequest id => item_response id "SUCCESS"
  | PayoutsPostRequest _ _ _ => inl (mkSdkError None None)
  end.

(** The events of the iterations for a list of loaded entities. *)
Fixpoint fold_events (client : Client) (l : list (nat * Withdrawal)) (s : State)
  : list Event :=
  match l with
  | [] => []
  | wd :: rest =>
      (body_result client wd s).2
        ++ fold_events client rest (body_state client wd s)
  end.


Definition is_execute (e : Event) : bool :=
  match e with Execute _ => true | _ => false end.

(** Alice with two PROCESSING withdrawals, the first in batch B0, the second
    in batch B1. *)
Definition two_processing_state : State :=
  mkState {[ "alice" := mkWallet 60 (Some "alice@example.org") true ]}
          {[ 1%nat := alice_withdrawal PROCESSING (Some "B0") (Some "I0");
             2%nat := alice_withdrawal PROCESSING (Some "B1") (Some "I2") ]}
          [("alice", 100)] [].

(** The provider is unreachable for batch B0 and answers for the others. *)
Definition flaky_client : Client := λ tr req,
  match req with
  | PayoutsGetRequest "B0" => inl (mkSdkError (Some 503%nat) (Some "Unavailable"))
  | _ => success_client tr req
  end.

(** ** Status transitions *)

(** The writes a withdrawal row may receive: creation as PENDING, and the four
    transitions of the state machine.  A row that is COMPLETED or FAILED
    admits no write. *)
Definition transition_ok (old : option Status) (new : Status) : bool :=
  match old, new with
  | None, PENDING => true
  | Some PENDING, PROCESSING => true
  | Some PENDING, FAILED => true
  | Some PROCESSING, COMPLETED => true
  | Some PROCESSING, FAILED => true
  | _, _ => false
  end.

(** Replaying the saved rows on a table, refusing any write that is not an
    allowed transition of the row it overwrites. *)
Fixpoint replay (tbl : gmap nat Withdrawal) (saves : list (nat * Withdrawal))
  : option (gmap nat Withdrawal) :=
  match saves with
  | [] => Some tbl
  | (i, w) :: rest =>
      if transition_ok (status <$> tbl !! i) (status w)
      then replay (<[i := w]> tbl) rest
      else None
  end.

Definition terminal (st : Status) : Prop := st = COMPLETED ∨ st = FAILED.

(** A [Checking status] line about a withdrawal other than [i]. *)
Definition foreign_check (i : nat) (e : Event) : bool :=
  match e with
  | Console (LogChecking j _) => negb (Nat.eqb j i)
  | _ => false
  end.

(** ** Atomic changes of the ledger *)

(** Every operation of the service is a sequence of the following changes. *)
Inductive atomic : State → State → Prop :=
| atomic_trace (s : State) (evs : list Event) :
    withdrawal_saves evs = [] →
    atomic s (mkState (wallets s) (withdrawals s) (deposits s) (trace s ++ evs))
| atomic_create (s : State) (c : string) :
    wallets s !! c = None →
    atomic s (mkState (<[c := mkWallet 0 None false]> (wallets s))
                      (withdrawals s) (deposits s)
                      (trace s ++ [SaveWallet c (mkWallet 0 None false)]))
| atomic_link (s : State) (c e : string) (w : Wallet) :
    wallets s !! c = Some w →
    atomic s (mkState (<[c := mkWallet (balance w) (Some e) true]> (wallets s))
                      (withdrawals s) (deposits s)
                      (trace s ++ [SaveWallet c (mkWallet (balance w) (Some e) true)]))
| atomic_deposit (s : State) (c : string) (a : Z) (w : Wallet) :
    wallets s !! c = Some w →
    atomic s (mkState (<[c := set_balance w (balance w + a)]> (wallets s))
                      (withdrawals s) ((c, a) :: deposits s)
                      (trace s ++ [SaveWallet c (set_balance w (balance w + a))]))
| atomic_submit (s : State) (c : string) (a : Z) (w : Wallet) (email : string)
    (r : Exn + PayoutResult) :
    validated c a w email s →
    atomic s (submitted_state c a w email r s)
| atomic_outcome (s : State) (o : Outcome) (wd : nat * Withdrawal)
    (evs : list Event) :
    withdrawals s !! wd.1 = Some wd.2 → status wd.2 = PROCESSING →
    withdrawal_saves evs = outcome_saves o wd →
    atomic s (apply_outcome o wd evs s).

(** [s'] continues [s]: its trace extends the trace of [s], and its
    withdrawal table is the table of [s] after the saves of the extension,
    each of them an allowed transition. *)
Definition continues (s s' : State) : Prop :=
  ∃ evs, trace s' = trace s ++ evs
         ∧ replay (withdrawals s) (withdrawal_saves evs) = Some (withdrawals s').

(** ** The balance invariant *)

(** The sum of the amounts deposited to the wallet of [c]. *)
Definition total_deposits (c : string) (ds : list (string * Z)) : Z :=
  foldr (λ d acc, if decide (d.1 = c) then d.2 + acc else acc) 0 ds.

(** The statuses whose amount is held against the balance. *)
Definition held (st : Status) : bool :=
  match st with
  | PENDING | PROCESSING | COMPLETED => true
  | FAILED => false
  end.

(** What one withdrawal row takes from the balance of [c]. *)
Definition counted (c : string) (w : Withdrawal) : Z :=
  if decide (creatorId w = c) then (if held (status w) then amount w else 0)
  else 0.

(** The sum of the amounts of the withdrawals of [c] that are PENDING,
    PROCESSING or COMPLETED. *)
Definition debits (c : string) (tbl : gmap nat Withdrawal) : Z :=
  map_fold (λ _ w acc, counted c w + acc) 0 tbl.



(** The provider accepts every payout into batch B1 with item I2 and then
    reports that item as successful. *)
Definition accepting_client : Client := λ tr req,
  match req with
  | PayoutsPostRequest _ _ _ =>
      batch_response [mkItem (Some "I2") (Some "PENDING") None]
  | _ => success_client tr req
  end.

(** As [accepting_client], but the item is later reported as failed. *)
Definition refusing_client : Client := λ tr req,
  match req with
  | PayoutsPostRequest _ _ _ =>
      batch_response [mkItem (Some "I2") (Some "PENDING") None]
  | PayoutsGetRequest _ =>
      batch_response [mkItem (Some "I2") (Some "RETURNED") None]
  | PayoutsItemGetRequest id => item_response id "RETURNED"
  end.

(** Open a wallet, link it, deposit 100, withdraw 20, reconcile. *)
Definition scenario : list Op :=
  [CreateWallet "alice"; LinkPayPal "alice" "alice@example.org";
   Deposit "alice" 100; RequestWithdrawal "alice" 20; UpdateWithdrawalStatuses].

(** ** The remaining wallet method and measures on traces *)

Definition getWalletByCreatorId (creatorId : string) : M Wallet :=
  wallet ← walletRepository_findOne creatorId;
  match wallet with
  | None =>
      throw (BadRequestException
               ("Wallet not found for creatorId: " +:+ creatorId))
  | Some wallet => mret wallet
  end.

Definition executed (e : Event) : option Request :=
  match e with
  | Execute req => Some req
  | _ => None
  end.

(** The provider requests made along a run of events, in order. *)
Definition executes (evs : list Event) : list Request := omap executed evs.

Definition is_post (req : Request) : bool :=
  match req with
  | PayoutsPostRequest _ _ _ => true
  | _ => false
  end.

(** The creator an operation is about, when it names one. *)
Definition op_creator (op : Op) : option string :=
  match op with
  | CreateWallet c | LinkPayPal c _ | Deposit c _ | RequestWithdrawal c _ => Some c
  | UpdateWithdrawalStatuses | ForceCheckWithdrawal _ => None
  end.

Definition is_deposit (op : Op) : bool :=
  match op with
  | Deposit _ _ => true
  | _ => false
  end.

(** An atomic change that is not a deposit. *)
Definition atomic_src (s s' : State) : Prop :=
  atomic s s' ∧ deposits s' = deposits s.

(** The fields of a withdrawal row that are fixed once it is submitted. *)
Definition identity (w : Withdrawal)
  : string * Z * option string * option string * option string :=
  (creatorId w, amount w, wd_paypalEmail w, paypalBatchId w, paypalPayoutItemId w).

(** The provider accepts the payout but its answer carries no batch id. *)
Definition no_batch_id_client : Client := λ _ req,
  match req with
  | PayoutsPostRequest _ _ _ =>
      inr (mkResponse
             (Some (mkResult (Some (mkBatchHeader None (Some "PENDING")))
                             None None None None)))
  | _ => inl (mkSdkError None None)
  end.

(** Two wallets, one of them linked, and one PROCESSING withdrawal without
    stored item id. *)
Definition two_wallet_state : State :=
  mkState {[ "alice" := mkWallet 80 (Some "alice@example.org") true;
             "bob" := mkWallet 7 None false ]}
          {[ 1%nat := alice_withdrawal PROCESSING (Some "B1") None ]}
          [("alice", 100); ("bob", 7)] [].


(** The SDK answers every request with a body that has no result. *)
Definition hollow_client : Client := λ _ _, inr (mkResponse None).

(** [s'] keeps the rows of [s]: every withdrawal row is still there with the
    same identity, a row that is not PROCESSING is the same row, and every
    wallet is still there. *)
Definition keeps (s s' : State) : Prop :=
  (∀ i x, withdrawals s !! i = Some x →
          ∃ x', withdrawals s' !! i = Some x'
                ∧ identity x' = identity x
                ∧ (status x ≠ PROCESSING → x' = x))
  ∧ (∀ c w, wallets s !! c = Some w → is_Some (wallets s' !! c)).

(** No balance and no withdrawal amount is negative. *)
Definition nonnegative (s : State) : Prop :=
  (∀ c w, wallets s !! c = Some w → 0 ≤ balance w)
  ∧ (∀ i x, withdrawals s !! i = Some x → 0 ≤ amount x).


(** No withdrawal of the creator [c] is PROCESSING: no check can refund
    anything to the wallet of [c]. *)
Definition no_open_payout (c : string) (s : State) : Prop :=
  ∀ i x, withdrawals s !! i = Some x → status x = PROCESSING → creatorId x ≠ c.

(** Two further wallets and one open withdrawal of bob's. *)
Definition bob_open_state : State :=
  mkState {[ "alice" := mkWallet 80 (Some "alice@example.org") true;
             "bob" := mkWallet 7 (Some "bob@example.org") true ]}
          {[ 1%nat := mkWithdrawal "bob" 20 PROCESSING (Some "bob@example.org")
                                   (Some "B1") (Some "I1") None ]}
          [("alice", 80); ("bob", 27)] [].

(** * Amounts as binary64 numbers

    [amount] and [balance] are JavaScript numbers.  This module embeds the
    methods that compute on them, [requestWithdrawal] (with [sendPayout]),
    [refundToWallet] and [updateWithdrawalFromItem], together with
    [createWallet] and [linkPayPal], with both read as IEEE 754 binary64
    values: [<=], [<] and [>] are the IEEE comparisons (false when an operand
    is NaN), [-=] and [+=] round to nearest.  Strings, statuses, the SDK's
    answers and the exception class are those of the development above. *)
Module Doubles.

Import PrimFloat.

Local Open Scope float_scope.

Record Wallet := mkWallet {
  balance : float;
  paypalEmail : option string;
  paypalVerified : bool
}.

Record Withdrawal := mkWithdrawal {
  creatorId : string;
  amount : float;
  status : Status;
  wd_paypalEmail : option string;
  paypalBatchId : option string;
  paypalPayoutItemId : option string;
  failureReason : option string
}.

(** The one request these methods send. *)
Inductive Request :=
| PayoutsPostRequest (receiver : string) (value : float) (currency : string).

Inductive LogLine :=
| LogUpdating (id : nat) (st : option string)   (* Updating withdrawal id with item status: st *)
| LogCompleted (id : nat)                       (* Withdrawal id marked as COMPLETED *)
| LogFailedRefunded (id : nat)                  (* Withdrawal id marked as FAILED and refunded *)
| LogRefunded (amt : float) (creator : string). (* Refunded $amt to wallet for creator c *)

Inductive Event :=
| Execute (req : Request)
| SaveWallet (creator : string) (w : Wallet)
| SaveWithdrawal (id : nat) (w : Withdrawal)
| Console (l : LogLine).

Record State := mkState {
  wallets : gmap string Wallet;
  withdrawals : gmap nat Withdrawal;
  deposits : list (string * float);
  trace : list Event
}.

Definition Client : Type := list Event → Request → SdkError + Response.

Definition M (A : Type) : Type := State → (Exn + A) * State.

#[export] Instance M_ret : MRet M := λ A a s, (inr a, s).

#[export] Instance M_bind : MBind M := λ A B f m s,
  match m s with
  | (inl e, s') => (inl e, s')
  | (inr a, s') => f a s'
  end.

Definition throw {A} (e : Exn) : M A := λ s, (inl e, s).

Definition try_catch {A} (m : M A) (handler : Exn → M A) : M A := λ s,
  match m s with
  | (inl e, s') => handler e s'
  | (inr a, s') => (inr a, s')
  end.

Definition emit (e : Event) : M unit := λ s,
  (inr tt, mkState (wallets s) (withdrawals s) (deposits s) (trace s ++ [e])).

Definition console_log (l : LogLine) : M unit := emit (Console l).

Definition walletRepository_findOne (creator : string) : M (option Wallet) :=
  λ s, (inr (wallets s !! creator), s).

Definition walletRepository_save (creator : string) (w : Wallet) : M unit :=
  λ s, (inr tt, mkState (<[creator := w]> (wallets s)) (withdrawals s)
                        (deposits s) (trace s ++ [SaveWallet creator w])).

Definition withdrawalRepository_save (id : nat) (w : Withdrawal) : M unit :=
  λ s, (inr tt, mkState (wallets s) (<[id := w]> (withdrawals s))
                        (deposits s) (trace s ++ [SaveWithdrawal id w])).

Definition withdrawalRepository_insert (w : Withdrawal) : M (nat * Withdrawal) :=
  λ s, let id := fresh (dom (withdrawals s)) in
       (inr (id, w), mkState (wallets s) (<[id := w]> (withdrawals s))
                             (deposits s) (trace s ++ [SaveWithdrawal id w])).

Definition set_balance (w : Wallet) (b : float) : Wallet :=
  mkWallet b (paypalEmail w) (paypalVerified w).

Definition set_status (w : Withdrawal) (st : Status) : Withdrawal :=
  mkWithdrawal (creatorId w) (amount w) st (wd_paypalEmail w)
               (paypalBatchId w) (paypalPayoutItemId w) (failureReason w).

Definition set_failureReason (w : Withdrawal) (r : string) : Withdrawal :=
  mkWithdrawal (creatorId w) (amount w) (status w) (wd_paypalEmail w)
               (paypalBatchId w) (paypalPayoutItemId w) (Some r).

Definition set_payout (w : Withdrawal) (batch item : option string) : Withdrawal :=
  mkWithdrawal (creatorId w) (amount w) (status w) (wd_paypalEmail w)
               batch item (failureReason w).

Section Service.

Variable client : Client.

Definition client_execute (req : Request) : M (SdkError + Response) := λ s,
  (inr (client (trace s) req),
   mkState (wallets s) (withdrawals s) (deposits s) (trace s ++ [Execute req])).

Definition sendPayout (recipientEmail : string) (amount : float)
    (currency : string) : M PayoutResult :=
  response ← client_execute (PayoutsPostRequest recipientEmail amount currency);
  match response with
  | inl error => throw (sendPayout_error error)
  | inr response =>
      match result response ≫= batch_header with
      | None =>
          throw (sendPayout_error
                   (mkSdkError None (Some "Invalid PayPal response structure")))
      | Some header =>
          let payoutItemId :=
            match result response ≫= items with
            | Some (item :: _) => payout_item_id item
            | _ => None
            end in
          mret (mkPayoutResult (payout_batch_id header) (batch_status header)
                               payoutItemId)
      end
  end.

Definition createWallet (creatorId : string) : M Wallet :=
  existingWallet ← walletRepository_findOne creatorId;
  match existingWallet with
  | Some _ => throw (BadRequestException "Wallet already exists for this creator.")
  | None =>
      let newWallet := mkWallet 0 None false in
      walletRepository_save creatorId newWallet;;
      mret newWallet
  end.

Definition linkPayPal (creatorId paypalEmail : string) : M Wallet :=
  wallet ← walletRepository_findOne creatorId;
  match wallet with
  | None => throw (BadRequestException "Wallet not found")
  | Some wallet =>
      let wallet := mkWallet (balance wallet) (Some paypalEmail) true in
      walletRepository_save creatorId wallet;;
      mret wallet
  end.

Definition requestWithdrawal (creatorId : string) (amount : float)
  : M (nat * Withdrawal * string) :=
  if amount <=? 0 then throw (BadRequestException "Invalid withdrawal amount")
  else if amount <? 5 then
    throw (BadRequestException "Minimum withdrawal amount is $5")
  else
    wallet ← walletRepository_findOne creatorId;
    match wallet with
    | None => throw (BadRequestException "Wallet not found")
    | Some wallet =>
        match truthy (paypalEmail wallet) with
        | None =>
            throw (BadRequestException "Please link your PayPal account first")
        | Some email =>
            if balance wallet <? amount then
              throw (BadRequestException "Insufficient balance")
            else
              let withdrawal :=
                mkWithdrawal creatorId amount PENDING (paypalEmail wallet)
                             None None None in
              let wallet := set_balance wallet (balance wallet - amount) in
              walletRepository_save creatorId wallet;;
              savedWithdrawal ← withdrawalRepository_insert withdrawal;
              try_catch
                (payoutResult ← sendPayout email amount "USD";
                 let saved :=
                   set_status
                     (set_payout savedWithdrawal.2 (pr_batchId payoutResult)
                                 (pr_payoutItemId payoutResult))
                     PROCESSING in
                 withdrawalRepository_save savedWithdrawal.1 saved;;
                 mret (savedWithdrawal.1, saved, submitted_message))
                (λ error,
                   let wallet := set_balance wallet (balance wallet + amount) in
                   walletRepository_save creatorId wallet;;
                   let saved :=
                     set_failureReason (set_status savedWithdrawal.2 FAILED)
                                       (exn_message error) in
                   withdrawalRepository_save savedWithdrawal.1 saved;;
                   throw (BadRequestException
                            ("Withdrawal failed: " +:+ exn_message error)))
        end
    end.

Definition refundToWallet (withdrawal : nat * Withdrawal) : M unit :=
  wallet ← walletRepository_findOne (creatorId withdrawal.2);
  match wallet with
  | Some wallet =>
      walletRepository_save (creatorId withdrawal.2)
        (set_balance wallet (balance wallet + amount withdrawal.2));;
      console_log (LogRefunded (amount withdrawal.2) (creatorId withdrawal.2))
  | None => mret tt
  end.

Definition updateWithdrawalFromItem (withdrawal : nat * Withdrawal) (item : Item)
  : M (nat * Withdrawal) :=
  let status := toLowerCase <$> transaction_status item in
  console_log (LogUpdating withdrawal.1 status);;
  if status_in status successFamily then
    let withdrawal := (withdrawal.1, set_status withdrawal.2 COMPLETED) in
    withdrawalRepository_save withdrawal.1 withdrawal.2;;
    console_log (LogCompleted withdrawal.1);;
    mret withdrawal
  else if status_in status failedFamily then
    let withdrawal :=
      (withdrawal.1,
       set_failureReason (set_status withdrawal.2 FAILED)
         (or_else (errors_message item)
                  ("PayPal transaction " +:+ interpolate status))) in
    refundToWallet withdrawal;;
    withdrawalRepository_save withdrawal.1 withdrawal.2;;
    console_log (LogFailedRefunded withdrawal.1);;
    mret withdrawal
  else mret withdrawal.

(** Modelled from the spec: the deposit (credit) operation on a wallet, which
    the invariant of the ledger counts but no source file under [src/]
    performs.  A deposit adds the amount to the balance of an existing wallet
    and is recorded in the ledger of deposits. *)
Definition deposit (creatorId : string) (amount : float) : M unit := λ s,
  match wallets s !! creatorId with
  | None => (inl (BadRequestException "Wallet not found"), s)
  | Some wallet =>
      (inr tt,
       mkState (<[creatorId := set_balance wallet (balance wallet + amount)]>
                  (wallets s))
               (withdrawals s) ((creatorId, amount) :: deposits s)
               (trace s
                  ++ [SaveWallet creatorId
                        (set_balance wallet (balance wallet + amount))]))
  end.

End Service.

(** ** Sequences of operations *)

Inductive Op :=
| CreateWallet (creatorId : string)
| LinkPayPal (creatorId paypalEmail : string)
| Deposit (creatorId : string) (amount : float)
| RequestWithdrawal (creatorId : string) (amount : float).

Definition ignore {A} (m : M A) : M unit := m ≫= λ _, mret tt.

Definition perform (client : Client) (op : Op) : M unit :=
  match op with
  | CreateWallet c => ignore (createWallet c)
  | LinkPayPal c e => ignore (linkPayPal c e)
  | Deposit c a => deposit c a
  | RequestWithdrawal c a => ignore (requestWithdrawal client c a)
  end.

Definition step (client : Client) (s : State) (op : Op) : State :=
  (perform client op s).2.

Definition run (client : Client) (ops : list Op) (s : State) : State :=
  fold_left (step client) ops s.

Definition init : State := mkState ∅ ∅ [] [].

(** ** requestWithdrawal after validation *)

(** The request passes the five validation tests. *)
Definition validated (c : string) (a : float) (w : Wallet) (email : string)
    (s : State) : Prop :=
  (a <=? 0) = false ∧ (a <? 5) = false ∧ wallets s !! c = Some w
  ∧ truthy (paypalEmail w) = Some email ∧ (balance w <? a) = false.

Definition new_withdrawal (c : string) (a : float) (w : Wallet) : Withdrawal :=
  mkWithdrawal c a PENDING (paypalEmail w) None None None.

(** The state in which the payout is submitted: the debited wallet and the
    PENDING row have been saved. *)
Definition submission_state (c : string) (a : float) (w : Wallet) (s : State)
  : State :=
  mkState (<[c := set_balance w (balance w - a)]> (wallets s))
          (<[fresh (dom (withdrawals s)) := new_withdrawal c a w]> (withdrawals s))
          (deposits s)
          (trace s
             ++ [SaveWallet c (set_balance w (balance w - a));
                 SaveWithdrawal (fresh (dom (withdrawals s)))
                                (new_withdrawal c a w)]).

(** ** The two claims about balances, as the specification states them *)

(** The debit is fully reversed when the submit call fails. *)
Definition submit_failure_restores_balance : Prop :=
  ∀ (client : Client) (c : string) (a : float) (w : Wallet) (email : string)
    (s : State) (e : Exn),
    validated c a w email s →
    (sendPayout client email a "USD" (submission_state c a w s)).1 = inl e →
    balance <$> wallets (requestWithdrawal client c a s).2 !! c
    = Some (balance w).

Definition total_deposits (c : string) (ds : list (string * float)) : float :=
  foldr (λ d acc, if decide (d.1 = c) then d.2 + acc else acc) 0 ds.

Definition counted (c : string) (w : Withdrawal) : float :=
  if decide (creatorId w = c) then (if held (status w) then amount w else 0)
  else 0.

Definition debits (c : string) (tbl : gmap nat Withdrawal) : float :=
  map_fold (λ _ w acc, counted c w + acc) 0 tbl.

(** The balance is the deposits minus the held withdrawals after every
    sequence of operations. *)
Definition balance_is_deposits_minus_held : Prop :=
  ∀ (client : Client) (ops : list Op) (c : string) (w : Wallet),
    wallets (run client ops init) !! c = Some w →
    balance w
    = total_deposits c (deposits (run client ops init))
      - debits c (withdrawals (run client ops init)).

(** ** Inputs *)

Definition rejecting_client : Client :=
  λ _ _, inl (mkSdkError (Some 422%nat) (Some "Unprocessable")).

Definition accepting_client : Client := λ _ _,
  inr (mkResponse
         (Some (mkResult (Some (mkBatchHeader (Some "B1") (Some "PENDING")))
                         (Some [mkItem (Some "I2") (Some "PENDING") None])
                         None None None))).

(** A linked wallet holding 13.4. *)
Definition alice_state : State :=
  mkState {[ "alice" := mkWallet 13.4 (Some "alice@example.org") true ]} ∅
          [("alice", 13.4)] [].

(** Open a wallet, link it, deposit 13.4, ask for 5.2. *)
Definition scenario : list Op :=
  [CreateWallet "alice"; LinkPayPal "alice" "alice@example.org";
   Deposit "alice" 13.4; RequestWithdrawal "alice" 5.2].

End Doubles.

(** * Theorems *)

(** ** Status normalisation *)

Lemma one_of_spec (s : string) (l : list string) : one_of s l = true ↔ s ∈ l.
Proof.
  unfold one_of. rewrite existsb_exists, list_elem_of_In. split.
  - intros (x & Hx & He). apply String.eqb_eq in He. by subst.
  - intros H. exists s. split; [done | apply String.eqb_refl].
Qed.

Lemma one_of_false (s : string) (l : list string) : one_of s l = false ↔ s ∉ l.
Proof.
  rewrite <- one_of_spec. destruct (one_of s l); split; congruence.
Qed.

Lemma truthy_Some (s : string) : s ≠ "" → truthy (Some s) = Some s.
Proof.
  intros H. simpl. destruct (String.eqb_spec s ""); congruence.
Qed.

Lemma toLowerCase_nonempty (s : string) : toLowerCase s ≠ "" → s ≠ "".
Proof. by destruct s. Qed.



Ltac family_cases H :=
  apply one_of_spec in H;
  unfold successFamily, failedFamily, pendingFamily in H;
  rewrite !elem_of_cons, elem_of_nil in H;
  repeat (destruct H as [->|H]); [.. | destruct H].

Lemma families_disjoint (x : string) :
  (one_of x successFamily = true →
   one_of x failedFamily = false ∧ one_of x pendingFamily = false) ∧
  (one_of x failedFamily = true →
   one_of x successFamily = false ∧ one_of x pendingFamily = false) ∧
  (one_of x pendingFamily = true →
   one_of x successFamily = false ∧ one_of x failedFamily = false).
Proof. split; [|split]; intros H; family_cases H; by split. Qed.

(** C4. Status normalisation is a total function of the provider status:
    whatever the letter case, a member of success/completed/claimed gives
    SUCCESS, a member of failed/returned/refunded/blocked gives FAILED, a
    member of pending/unclaimed gives PENDING, every other non-empty string
    gives its upper-case form, and an absent status gives UNKNOWN. *)
Theorem normalizeTransactionStatus_spec :
  (∀ s, toLowerCase s ∈ ["success"; "completed"; "claimed"] →
        normalizeTransactionStatus (Some s) = "SUCCESS") ∧
  (∀ s, toLowerCase s ∈ ["failed"; "returned"; "refunded"; "blocked"] →
        normalizeTransactionStatus (Some s) = "FAILED") ∧
  (∀ s, toLowerCase s ∈ ["pending"; "unclaimed"] →
        normalizeTransactionStatus (Some s) = "PENDING") ∧
  (∀ s, s ≠ "" →
        toLowerCase s ∉ ["success"; "completed"; "claimed"; "failed"; "returned";
                         "refunded"; "blocked"; "pending"; "unclaimed"] →
        normalizeTransactionStatus (Some s) = toUpperCase s) ∧
  normalizeTransactionStatus None = "UNKNOWN".
Proof.
  assert (Hne : ∀ s (l : list string), toLowerCase s ∈ l → "" ∉ l →
                 truthy (Some s) = Some s).
  { intros s l Hin Hl. apply truthy_Some, toLowerCase_nonempty.
    intros E. by rewrite E in Hin. }
  change ["success"; "completed"; "claimed"; "failed"; "returned"; "refunded";
          "blocked"; "pending"; "unclaimed"]
    with (successFamily ++ failedFamily ++ pendingFamily)%list.
  change ["success"; "completed"; "claimed"] with successFamily.
  change ["failed"; "returned"; "refunded"; "blocked"] with failedFamily.
  change ["pending"; "unclaimed"] with pendingFamily.
  unfold normalizeTransactionStatus. cbv zeta. repeat split.
  - intros s H. rewrite (Hne s _ H) by (by intros ?%one_of_spec).
    apply one_of_spec in H. by rewrite H.
  - intros s H. rewrite (Hne s _ H) by (by intros ?%one_of_spec).
    apply one_of_spec in H.
    destruct (families_disjoint (toLowerCase s)) as (_ & Hd & _).
    destruct (Hd H) as [-> _]. by rewrite H.
  - intros s H. rewrite (Hne s _ H) by (by intros ?%one_of_spec).
    apply one_of_spec in H.
    destruct (families_disjoint (toLowerCase s)) as (_ & _ & Hd).
    destruct (Hd H) as [-> ->]. by rewrite H.
  - intros s Hs H. rewrite truthy_Some by done.
    rewrite !elem_of_app in H.
    assert (Hs1 : toLowerCase s ∉ successFamily) by tauto.
    assert (Hs2 : toLowerCase s ∉ failedFamily) by tauto.
    assert (Hs3 : toLowerCase s ∉ pendingFamily) by tauto.
    apply one_of_false in Hs1, Hs2, Hs3. by rewrite Hs1, Hs2, Hs3.
Qed.

Lemma normalizeTransactionStatus_spec_witness :
  normalizeTransactionStatus (Some "Completed") = "SUCCESS" ∧
  normalizeTransactionStatus (Some "BLOCKED") = "FAILED" ∧
  normalizeTransactionStatus (Some "unclaimed") = "PENDING" ∧
  normalizeTransactionStatus (Some "weird_status") = "WEIRD_STATUS" ∧
  normalizeTransactionStatus None = "UNKNOWN".
Proof.
  destruct normalizeTransactionStatus_spec as (H1 & H2 & H3 & H4 & H5).
  split; [apply H1; by apply one_of_spec|].
  split; [apply H2; by apply one_of_spec|].
  split; [apply H3; by apply one_of_spec|].
  split; [apply (H4 "weird_status"); [done|by apply one_of_false]|].
  exact H5.
Defined.

(** ** Unfolding the monad *)

Ltac unfold_M :=
  unfold ignore, mbind, M_bind, mret, M_ret, throw, try_catch, console_log, emit,
    walletRepository_findOne, walletRepository_save,
    withdrawalRepository_findOne, withdrawalRepository_find,
    withdrawalRepository_save, withdrawalRepository_insert, client_execute.

(** ** Validation in requestWithdrawal *)

Lemma requestWithdrawal_rejected (client : Client) (c : string) (a : Z)
    (s : State) :
  (a ≤ 0 ∨ a < 5 ∨ wallets s !! c = None ∨
   ∃ w, wallets s !! c = Some w ∧ (truthy (paypalEmail w) = None ∨ balance w < a)) →
  ∃ m, requestWithdrawal client c a s = (inl (BadRequestException m), s).
Proof.
  intros H. unfold requestWithdrawal.
  destruct (Z.leb_spec a 0); [by eexists|].
  destruct (Z.ltb_spec a 5); [by eexists|].
  unfold_M.
  destruct H as [H|[H|[H|(w & Hw & H)]]]; [lia | lia | |].
  - rewrite H. by eexists.
  - rewrite Hw. destruct H as [H|H].
    + rewrite H. by eexists.
    + destruct (truthy (paypalEmail w)); [|by eexists].
      destruct (Z.ltb_spec (balance w) a); [by eexists | lia].
Qed.

(** C3. A request with a non-positive amount, an amount below 5, no wallet,
    no linked PayPal email, or an amount above the balance throws a
    BadRequestException and leaves the whole state as it was: no wallet is
    written, no withdrawal is created, the provider is not called. *)
Theorem requestWithdrawal_validation (client : Client) (c : string) (a : Z)
    (s : State) :
  (a ≤ 0 ∨ a < 5 ∨ wallets s !! c = None ∨
   ∃ w, wallets s !! c = Some w ∧ (truthy (paypalEmail w) = None ∨ balance w < a)) →
  ∃ m,
    requestWithdrawal client c a s = (inl (BadRequestException m), s)
    ∧ wallets (requestWithdrawal client c a s).2 = wallets s
    ∧ withdrawals (requestWithdrawal client c a s).2 = withdrawals s
    ∧ trace (requestWithdrawal client c a s).2 = trace s.
Proof.
  intros H. destruct (requestWithdrawal_rejected client c a s H) as [m Hm].
  exists m. by rewrite Hm.
Qed.

Lemma requestWithdrawal_validation_witness :
  let s := mkState {[ "alice" := mkWallet 3 (Some "a@x.org") true ]} ∅ [] [] in
  let r := requestWithdrawal (λ _ _, inl (mkSdkError None None)) "alice" 10 s in
  ∃ m, r = (inl (BadRequestException m), s)
       ∧ wallets r.2 = wallets s
       ∧ withdrawals r.2 = withdrawals s
       ∧ trace r.2 = trace s.
Proof.
  apply requestWithdrawal_validation. right. right. right.
  exists (mkWallet 3 (Some "a@x.org") true). split; [reflexivity|].
  right. simpl. lia.
Defined.

(** ** forceCheckWithdrawal: the early exits *)

Lemma forceCheckWithdrawal_not_found (client : Client) (id : nat) (s : State) :
  withdrawals s !! id = None →
  forceCheckWithdrawal client id s
  = (inl (BadRequestException "Withdrawal not found"), s).
Proof. intros H. unfold forceCheckWithdrawal. unfold_M. by rewrite H. Qed.

Lemma forceCheckWithdrawal_not_processing (client : Client) (id : nat)
    (w : Withdrawal) (s : State) :
  withdrawals s !! id = Some w → status w ≠ PROCESSING →
  forceCheckWithdrawal client id s
  = (inr (NotProcessing "Withdrawal is not in processing status"), s).
Proof.
  intros H Hst. unfold forceCheckWithdrawal. unfold_M. rewrite H.
  by rewrite bool_decide_eq_false_2.
Qed.

Lemma forceCheckWithdrawal_no_batch (client : Client) (id : nat)
    (w : Withdrawal) (s : State) :
  withdrawals s !! id = Some w → status w = PROCESSING →
  truthy (paypalBatchId w) = None →
  forceCheckWithdrawal client id s
  = (inl (BadRequestException "No PayPal batch ID found"), s).
Proof.
  intros H Hst Hb. unfold forceCheckWithdrawal. unfold_M. rewrite H.
  rewrite bool_decide_eq_true_2 by done. simpl. by rewrite Hb.
Qed.

(** C8. forceCheckWithdrawal throws when no withdrawal has the id; returns
    the informational message when the withdrawal is not PROCESSING; throws
    when it is PROCESSING without a batch id.  In all three cases the state
    is untouched: no provider call, no write, no console line. *)
Theorem forceCheckWithdrawal_early_exits (client : Client) (id : nat) (s : State) :
  (withdrawals s !! id = None →
   forceCheckWithdrawal client id s
   = (inl (BadRequestException "Withdrawal not found"), s)) ∧
  (∀ w, withdrawals s !! id = Some w → status w ≠ PROCESSING →
   forceCheckWithdrawal client id s
   = (inr (NotProcessing "Withdrawal is not in processing status"), s)) ∧
  (∀ w, withdrawals s !! id = Some w → status w = PROCESSING →
   truthy (paypalBatchId w) = None →
   forceCheckWithdrawal client id s
   = (inl (BadRequestException "No PayPal batch ID found"), s)).
Proof.
  split; [apply forceCheckWithdrawal_not_found|].
  split; intros w; [apply forceCheckWithdrawal_not_processing
                   | apply forceCheckWithdrawal_no_batch].
Qed.

(** ** Status checks as outcomes *)

Lemma refundToWallet_run (wd : nat * Withdrawal) (s : State) :
  refundToWallet wd s
  = (inr tt,
     mkState (credit (creatorId wd.2) (amount wd.2) (wallets s)) (withdrawals s)
             (deposits s) (trace s ++ refund_events wd s)).
Proof.
  unfold refundToWallet, credit, refund_events. unfold_M.
  destruct (wallets s !! creatorId wd.2); simpl.
  - by rewrite <- app_assoc.
  - rewrite app_nil_r. by destruct s.
Qed.

Lemma updateWithdrawalFromItem_run (wd : nat * Withdrawal) (item : Item) (s : State) :
  updateWithdrawalFromItem wd item s
  = (inr (wd.1, settled (item_outcome item) wd.2),
     apply_outcome (item_outcome item) wd
       (Console (LogUpdating wd.1 (toLowerCase <$> transaction_status item))
          :: outcome_events (item_outcome item) wd s) s).
Proof.
  unfold updateWithdrawalFromItem, item_outcome. cbv zeta.
  destruct (status_in _ successFamily) eqn:E1.
  - unfold_M. simpl. by rewrite <- !app_assoc.
  - destruct (status_in _ failedFamily) eqn:E2.
    + unfold mbind at 1, M_bind at 1. unfold console_log at 1, emit at 1.
      unfold mbind at 1, M_bind at 1. rewrite refundToWallet_run.
      unfold_M. unfold refund_events. simpl. by rewrite <- !app_assoc.
    + unfold_M. simpl. by destruct wd.
Qed.

Lemma bind_run {A B} (m : M A) (f : A → M B) (s : State) :
  (m ≫= f) s
  = match m s with
    | (inl e, s') => (inl e, s')
    | (inr a, s') => f a s'
    end.
Proof. reflexivity. Qed.

Lemma try_catch_run {A} (m : M A) (h : Exn → M A) (s : State) :
  try_catch m h s
  = match m s with
    | (inl e, s') => h e s'
    | (inr a, s') => (inr a, s')
    end.
Proof. reflexivity. Qed.

Lemma sendPayout_run (client : Client) (email : string) (a : Z) (cur : string)
    (s : State) :
  sendPayout client email a cur s
  = (payoutResult_of (client (trace s) (PayoutsPostRequest email a cur)),
     called (PayoutsPostRequest email a cur) s).
Proof.
  unfold sendPayout, payoutResult_of, called. unfold_M.
  destruct (client _ _) as [e|r]; [done|].
  by destruct (option_bind _ _ _ (result r)).
Qed.

Lemma getPayoutStatus_run (client : Client) (b : string) (s : State) :
  getPayoutStatus client b s
  = (payoutStatus_of b (client (trace s) (PayoutsGetRequest b)),
     called (PayoutsGetRequest b) s).
Proof.
  unfold getPayoutStatus, payoutStatus_of, called. unfold_M.
  by destruct (client _ _) as [e|r].
Qed.

Lemma getPayoutItemStatus_run (client : Client) (i : string) (s : State) :
  getPayoutItemStatus client i s
  = (itemStatus_of (client (trace s) (PayoutsItemGetRequest i)),
     called (PayoutsItemGetRequest i) s).
Proof.
  unfold getPayoutItemStatus, itemStatus_of, called. unfold_M.
  by destruct (client _ _) as [e|r].
Qed.

Lemma apply_outcome_nil (wd : nat * Withdrawal) (s : State) :
  apply_outcome Unchanged wd [] s = s.
Proof. destruct s. simpl. by rewrite app_nil_r. Qed.

Lemma updateWithdrawalStatuses_items_run (wd : nat * Withdrawal) (count : nat)
    (items : list Item) (s : State) :
  updateWithdrawalStatuses_items wd count items s
  = (inr (wd.1, settled (scan_outcome wd.2 count items) wd.2),
     apply_outcome (scan_outcome wd.2 count items) wd
       (scan_events wd count items s) s).
Proof.
  unfold scan_outcome, scan_events. revert s.
  induction items as [|item rest IH]; intros s.
  - simpl. unfold_M. rewrite app_nil_r. by destruct s, wd.
  - simpl. rewrite bind_run. unfold console_log at 1, emit at 1.
    assert (Hstep : ∀ s0 : State,
      updateWithdrawalFromItem wd item
        (mkState (wallets s0) (withdrawals s0) (deposits s0)
           (trace s0 ++ [Console (LogItem (transaction_status item)
                                          (payout_item_id item))]))
      = (inr (wd.1, settled (item_outcome item) wd.2),
         apply_outcome (item_outcome item) wd
           (Console (LogItem (transaction_status item) (payout_item_id item))
              :: Console (LogUpdating wd.1
                            (toLowerCase <$> transaction_status item))
              :: outcome_events (item_outcome item) wd s0) s0)).
    { intros s0. rewrite updateWithdrawalFromItem_run. f_equal.
      destruct (item_outcome item); simpl; unfold refund_events; simpl;
        by rewrite <- app_assoc. }
    assert (Hnext : ∀ s0 : State,
      updateWithdrawalStatuses_items wd count rest
        (mkState (wallets s0) (withdrawals s0) (deposits s0)
           (trace s0 ++ [Console (LogItem (transaction_status item)
                                          (payout_item_id item))]))
      = (inr (wd.1, settled (from_option item_outcome Unchanged
                               (List.find (scan_pred wd.2 count) rest)) wd.2),
         apply_outcome (from_option item_outcome Unchanged
                          (List.find (scan_pred wd.2 count) rest)) wd
           (Console (LogItem (transaction_status item) (payout_item_id item))
              :: scan_lines wd.2 count rest
              ++ match List.find (scan_pred wd.2 count) rest with
                 | Some item =>
                     Console (LogUpdating wd.1
                                (toLowerCase <$> transaction_status item))
                       :: outcome_events (item_outcome item) wd s0
                 | None => []
                 end) s0)).
    { intros s0. rewrite IH. f_equal.
      destruct (List.find (scan_pred wd.2 count) rest) as [it|]; simpl.
      - destruct (item_outcome it); simpl; unfold refund_events; simpl;
          by rewrite <- app_assoc.
      - by rewrite <- app_assoc. }
    destruct (scan_pred wd.2 count item) eqn:E; simpl; unfold scan_pred in E;
      destruct (truthy (paypalPayoutItemId wd.2)) as [itemId|]; rewrite E;
      first [apply Hstep | apply Hnext].
Qed.

Lemma updateWithdrawalStatuses_item_run (client : Client) (wd : nat * Withdrawal)
    (s : State) :
  updateWithdrawalStatuses_item client wd s
  = (inr tt,
     apply_outcome (item_stage client wd s).1 wd (item_stage client wd s).2 s).
Proof.
  unfold updateWithdrawalStatuses_item, item_stage.
  destruct (truthy (paypalPayoutItemId wd.2)) as [itemId|];
    [|by rewrite apply_outcome_nil].
  destruct (bool_decide (status wd.2 = PROCESSING));
    [|by rewrite apply_outcome_nil].
  rewrite try_catch_run, bind_run, getPayoutItemStatus_run.
  destruct (itemStatus_of _) as [e|st]; simpl.
  - unfold_M. unfold called. simpl. by rewrite <- app_assoc.
  - unfold item_status_outcome.
    destruct (String.eqb (is_status st) "SUCCESS").
    + unfold_M. unfold called. simpl. by rewrite <- !app_assoc.
    + destruct (String.eqb (is_status st) "FAILED").
      * rewrite bind_run. unfold console_log at 1, emit at 1.
        rewrite bind_run, refundToWallet_run.
        unfold_M. unfold called, refund_events. simpl.
        by rewrite <- !app_assoc.
      * unfold_M. unfold called. simpl. by rewrite <- !app_assoc.
Qed.

Lemma updateWithdrawalStatuses_body_run (client : Client)
    (wd : nat * Withdrawal) (s : State) :
  updateWithdrawalStatuses_body client wd s
  = (inr tt,
     apply_outcome (body_result client wd s).1 wd (body_result client wd s).2 s).
Proof.
  unfold updateWithdrawalStatuses_body, body_result.
  destruct (truthy (paypalBatchId wd.2)) as [batchId|];
    [|by rewrite apply_outcome_nil].
  rewrite try_catch_run, bind_run. unfold console_log at 1, emit at 1.
  rewrite bind_run, getPayoutStatus_run. simpl.
  destruct (payoutStatus_of _ _) as [e|ps]; simpl.
  - unfold_M. unfold called. simpl. by rewrite <- !app_assoc.
  - rewrite bind_run. unfold console_log at 1, emit at 1.
    rewrite bind_run. unfold console_log at 1, emit at 1.
    rewrite bind_run, updateWithdrawalStatuses_items_run.
    unfold called. simpl.
    set (evs := scan_events wd (length (ps_items ps)) (ps_items ps) _).
    assert (Hevs : evs = scan_events wd (length (ps_items ps)) (ps_items ps) s).
    { unfold evs, scan_events.
      destruct (List.find _ _) as [it|]; [|done].
      by destruct (item_outcome it). }
    rewrite Hevs. clear evs Hevs.
    destruct (scan_outcome wd.2 (length (ps_items ps)) (ps_items ps)) eqn:Ho.
    + simpl settled.
      replace (wd.1, wd.2) with wd by (by destruct wd).
      rewrite updateWithdrawalStatuses_item_run.
      f_equal.
      cbn [fst snd].
      match goal with
      | |- apply_outcome (item_stage client wd ?s1).1 wd _ _
           = apply_outcome (item_stage client wd ?s2).1 wd _ s =>
          replace s1 with s2 by (simpl; by rewrite <- !app_assoc);
          set (r := item_stage client wd s2)
      end.
      destruct r.1; simpl; by rewrite <- app_assoc.
    + unfold updateWithdrawalStatuses_item. simpl.
      destruct (truthy (paypalPayoutItemId wd.2)); simpl;
        by rewrite <- !app_assoc.
    + unfold updateWithdrawalStatuses_item. simpl.
      destruct (truthy (paypalPayoutItemId wd.2)); simpl;
        by rewrite <- !app_assoc.
Qed.

Lemma for_of_body_run (client : Client) (l : list (nat * Withdrawal)) (s : State) :
  for_of l (updateWithdrawalStatuses_body client) s
  = (inr tt, body_fold client l s).
Proof.
  revert s. induction l as [|wd l IH]; intros s; [done|].
  simpl. rewrite bind_run, updateWithdrawalStatuses_body_run. apply IH.
Qed.

Lemma updateWithdrawalStatuses_run (client : Client) (s : State) :
  updateWithdrawalStatuses client s
  = (inr tt,
     logged LogUpdateCompleted
       (body_fold client (processingWithdrawals s)
          (logged (LogFound (length (processingWithdrawals s)))
             (logged LogStarting s)))).
Proof.
  unfold updateWithdrawalStatuses.
  rewrite bind_run. unfold console_log at 1, emit at 1.
  rewrite bind_run. unfold withdrawalRepository_find at 1. cbn [withdrawals].
  rewrite bind_run. unfold console_log at 1, emit at 1.
  rewrite bind_run, for_of_body_run. reflexivity.
Qed.

(** ** requestWithdrawal after validation *)

Lemma requestWithdrawal_run (client : Client) (c : string) (a : Z) (w : Wallet)
    (email : string) (s : State) :
  validated c a w email s →
  let r := payoutResult_of
             (client (submission_trace c a w s) (PayoutsPostRequest email a "USD")) in
  requestWithdrawal client c a s
  = (match r with
     | inr payoutResult =>
         inr (fresh (dom (withdrawals s)),
              set_status
                (set_payout (new_withdrawal c a w) (pr_batchId payoutResult)
                            (pr_payoutItemId payoutResult)) PROCESSING,
              submitted_message)
     | inl error =>
         inl (BadRequestException ("Withdrawal failed: " +:+ exn_message error))
     end,
     submitted_state c a w email r s).
Proof.
  intros (Ha & Hw & He & Hb) r. unfold requestWithdrawal.
  destruct (Z.leb_spec a 0); [lia|].
  destruct (Z.ltb_spec a 5); [lia|].
  rewrite bind_run. unfold walletRepository_findOne at 1. rewrite Hw, He.
  destruct (Z.ltb_spec (balance w) a); [lia|].
  rewrite bind_run. unfold walletRepository_save at 1.
  rewrite bind_run. unfold withdrawalRepository_insert at 1.
  rewrite try_catch_run, bind_run, sendPayout_run.
  cbn [trace wallets withdrawals deposits fst snd].
  replace ((trace s ++ [SaveWallet c (set_balance w (balance w - a))]) ++
           [SaveWithdrawal (fresh (dom (withdrawals s)))
              (mkWithdrawal c a PENDING (paypalEmail w) None None None)])
    with (submission_trace c a w s)
    by (unfold submission_trace, new_withdrawal; by rewrite <- app_assoc).
  fold r. unfold submitted_state.
  destruct r as [e|pr]; unfold_M; unfold called; simpl.
  - f_equal. f_equal.
    replace ((trace s ++ [SaveWallet c (set_balance w (balance w - a))]) ++
             [SaveWithdrawal (fresh (dom (withdrawals s)))
                (mkWithdrawal c a PENDING (paypalEmail w) None None None)])
      with (submission_trace c a w s)
      by (unfold submission_trace, new_withdrawal; by rewrite <- app_assoc).
    by rewrite <- !app_assoc.
  - f_equal. f_equal.
    replace ((trace s ++ [SaveWallet c (set_balance w (balance w - a))]) ++
             [SaveWithdrawal (fresh (dom (withdrawals s)))
                (mkWithdrawal c a PENDING (paypalEmail w) None None None)])
      with (submission_trace c a w s)
      by (unfold submission_trace, new_withdrawal; by rewrite <- app_assoc).
    by rewrite <- !app_assoc.
Qed.



Lemma fresh_withdrawal_id (s : State) :
  withdrawals s !! fresh (dom (withdrawals s)) = None.
Proof. apply not_elem_of_dom, is_fresh. Qed.



(** ** Outcomes of normalised statuses *)



(** ** forceCheckWithdrawal on a PROCESSING withdrawal *)

Lemma forceCheckWithdrawal_run (client : Client) (id : nat) (w : Withdrawal)
    (b : string) (s : State) :
  withdrawals s !! id = Some w → status w = PROCESSING →
  truthy (paypalBatchId w) = Some b →
  forceCheckWithdrawal client id s
  = match payoutStatus_of b (client (trace s) (PayoutsGetRequest b)) with
    | inl e =>
        (inl (BadRequestException
                ("Failed to check withdrawal status: " +:+ exn_message e)),
         called (PayoutsGetRequest b) s)
    | inr ps =>
        match ps_items ps with
        | item :: _ =>
            (inr (StatusCheckCompleted "Status check completed"
                    (id, settled (item_outcome item) w)),
             apply_outcome (item_outcome item) (id, w)
               (Execute (PayoutsGetRequest b)
                  :: Console (LogUpdating id
                                (toLowerCase <$> transaction_status item))
                  :: outcome_events (item_outcome item) (id, w) s) s)
        | [] =>
            (inr (StatusCheckCompleted "Status check completed" (id, w)),
             called (PayoutsGetRequest b) s)
        end
    end.
Proof.
  intros Hw Hst Hb. unfold forceCheckWithdrawal.
  rewrite bind_run. unfold withdrawalRepository_findOne at 1. rewrite Hw.
  rewrite bool_decide_eq_true_2 by done. cbn [negb]. rewrite Hb.
  rewrite try_catch_run, bind_run, getPayoutStatus_run.
  destruct (payoutStatus_of _ _) as [e|ps]; [done|].
  destruct (ps_items ps) as [|item rest]; [done|].
  rewrite bind_run, updateWithdrawalFromItem_run. unfold called. cbn.
  f_equal. destruct (item_outcome item); cbn; unfold refund_events; cbn;
    by rewrite <- app_assoc.
Qed.

Lemma forceCheckWithdrawal_early_exits_witness :
  forceCheckWithdrawal rejecting_client 7 settled_state
  = (inl (BadRequestException "Withdrawal not found"), settled_state)
  ∧ forceCheckWithdrawal rejecting_client 1 settled_state
    = (inr (NotProcessing "Withdrawal is not in processing status"), settled_state)
  ∧ forceCheckWithdrawal rejecting_client 2 settled_state
    = (inl (BadRequestException "No PayPal batch ID found"), settled_state).
Proof.
  destruct (forceCheckWithdrawal_early_exits rejecting_client 7 settled_state)
    as (H7 & _ & _).
  destruct (forceCheckWithdrawal_early_exits rejecting_client 1 settled_state)
    as (_ & H1 & _).
  destruct (forceCheckWithdrawal_early_exits rejecting_client 2 settled_state)
    as (_ & _ & H2).
  split; [apply H7; reflexivity|].
  split.
  - apply (H1 (alice_withdrawal COMPLETED (Some "B1") (Some "I1")));
      [reflexivity | discriminate].
  - apply (H2 (alice_withdrawal PROCESSING None None)); reflexivity.
Defined.



(** ** The item loop selects the matching item *)

Lemma scan_find_matching (w : Withdrawal) (items : list Item) :
  List.find (scan_pred w (length items)) items = matchingItem w items.
Proof.
  unfold matchingItem, scan_pred.
  destruct (truthy (paypalPayoutItemId w)) as [itemId|]; [done|].
  destruct items as [|x [|y rest]]; [done | done |].
  cbn [length Nat.eqb]. induction (x :: y :: rest) as [|z l IH]; [done|].
  simpl. exact IH.
Qed.

Lemma scan_outcome_matching (w : Withdrawal) (items : list Item) :
  scan_outcome w (length items) items
  = from_option item_outcome Unchanged (matchingItem w items).
Proof. unfold scan_outcome. by rewrite scan_find_matching. Qed.



Lemma ledger_apply_outcome (o : Outcome) (wd : nat * Withdrawal)
    (evs : list Event) (s : State) :
  ledger (apply_outcome o wd evs s) = ledger (apply_outcome o wd [] s).
Proof. by destruct o. Qed.

Lemma trace_apply_outcome (o : Outcome) (wd : nat * Withdrawal)
    (evs : list Event) (s : State) :
  trace (apply_outcome o wd evs s) = trace s ++ evs.
Proof. by destruct o. Qed.

Lemma body_state_run (client : Client) (wd : nat * Withdrawal) (s : State) :
  (updateWithdrawalStatuses_body client wd s).2 = body_state client wd s.
Proof. by rewrite updateWithdrawalStatuses_body_run. Qed.

(** ** One iteration of the scheduled update *)

Lemma body_result_fetched (client : Client) (wd : nat * Withdrawal) (b : string)
    (resp : Response) (s : State) :
  truthy (paypalBatchId wd.2) = Some b →
  client (trace s ++ [Console (LogChecking wd.1 b)]) (PayoutsGetRequest b)
  = inr resp →
  let o := from_option item_outcome Unchanged
             (matchingItem wd.2
                (map normalizeItem (default [] (result resp ≫= items)))) in
  ∃ evs,
    body_result client wd s
    = match o with
      | Unchanged =>
          let second := item_stage client wd (apply_outcome Unchanged wd evs s) in
          (second.1, evs ++ second.2)
      | _ => (o, evs)
      end.
Proof.
  intros Hb Hc o. unfold body_result. rewrite Hb, Hc.
  unfold payoutStatus_of. cbv zeta. cbn [ps_items ps_status].
  rewrite scan_outcome_matching. fold o. eexists.
  destruct o; reflexivity.
Qed.





(** ** A refund without a wallet *)

Lemma quiet_scan_lines (w : Withdrawal) (count : nat) (items : list Item) :
  Forall quiet (scan_lines w count items).
Proof.
  induction items as [|item rest IH]; simpl; [constructor|].
  constructor; [done|]. by destruct (scan_pred w count item).
Qed.

Lemma quiet_outcome_events (o : Outcome) (wd : nat * Withdrawal) (s : State) :
  wallets s !! creatorId wd.2 = None → Forall quiet (outcome_events o wd s).
Proof.
  intros Hw. destruct o; simpl; [constructor | by repeat constructor |].
  unfold refund_events. rewrite Hw. by repeat constructor.
Qed.

Lemma quiet_scan_events (wd : nat * Withdrawal) (count : nat)
    (items : list Item) (s : State) :
  wallets s !! creatorId wd.2 = None → Forall quiet (scan_events wd count items s).
Proof.
  intros Hw. unfold scan_events. apply Forall_app. split.
  - apply quiet_scan_lines.
  - destruct (List.find _ _); [|constructor].
    constructor; [done|]. by apply quiet_outcome_events.
Qed.

Lemma quiet_item_stage (client : Client) (wd : nat * Withdrawal) (s : State) :
  wallets s !! creatorId wd.2 = None →
  (item_stage client wd s).1 ≠ Unchanged →
  Forall quiet (item_stage client wd s).2.
Proof.
  intros Hw. unfold item_stage.
  destruct (truthy (paypalPayoutItemId wd.2)); [|done].
  destruct (bool_decide (status wd.2 = PROCESSING)); [|done].
  destruct (itemStatus_of _) as [e|st]; [done|]. cbn [fst snd]. intros _.
  constructor; [done|]. constructor; [done|]. by apply quiet_outcome_events.
Qed.

Lemma quiet_body_result (client : Client) (wd : nat * Withdrawal) (s : State) :
  wallets s !! creatorId wd.2 = None →
  (body_result client wd s).1 ≠ Unchanged →
  Forall quiet (body_result client wd s).2.
Proof.
  intros Hw. unfold body_result.
  destruct (truthy (paypalBatchId wd.2)) as [b|]; [|done].
  destruct (payoutStatus_of _ _) as [e|ps]; [done|]. cbv zeta.
  assert (Hpre : Forall quiet
    ([Console (LogChecking wd.1 b); Execute (PayoutsGetRequest b)]
       ++ [Console (LogBatchStatus (ps_status ps));
           Console (LogItemsCount (length (ps_items ps)))]
       ++ scan_events wd (length (ps_items ps)) (ps_items ps) s)).
  { repeat (constructor; [done|]). by apply quiet_scan_events. }
  destruct (scan_outcome wd.2 (length (ps_items ps)) (ps_items ps));
    cbn [fst snd]; [|done..].
  intros Hne. apply Forall_app. split; [done|].
  apply quiet_item_stage; [|done]. by destruct wd.
Qed.

(** C10. When no wallet exists for the creator of a withdrawal,
    refundToWallet does nothing; and an iteration of the scheduled update
    that turns the withdrawal FAILED returns normally, saves the row as
    FAILED with a reason, leaves the wallet table as it was (no wallet is
    created or credited) and writes no error line. *)
Theorem refund_skipped_without_wallet (client : Client) (wd : nat * Withdrawal)
    (s : State) :
  wallets s !! creatorId wd.2 = None →
  refundToWallet wd s = (inr tt, s)
  ∧ (withdrawals s !! wd.1 = Some wd.2 → status wd.2 = PROCESSING →
     let s' := (updateWithdrawalStatuses_body client wd s).2 in
     (∃ w', withdrawals s' !! wd.1 = Some w' ∧ status w' = FAILED) →
     (updateWithdrawalStatuses_body client wd s).1 = inr tt
     ∧ wallets s' = wallets s
     ∧ (∃ r, withdrawals s'
             = <[wd.1 := set_failureReason (set_status wd.2 FAILED) r]>
                 (withdrawals s))
     ∧ ∃ evs, trace s' = trace s ++ evs ∧ Forall quiet evs).
Proof.
  intros Hw. split.
  { rewrite refundToWallet_run. unfold credit, refund_events. rewrite Hw.
    rewrite app_nil_r. by destruct s. }
  intros Hrow Hst s' (w' & Hw' & Hfailed). subst s'.
  rewrite updateWithdrawalStatuses_body_run in *. cbn [fst snd] in *.
  pose proof (quiet_body_result client wd s Hw) as Hq.
  destruct (body_result client wd s) as [o evs]. cbn [fst snd] in *.
  destruct o as [| |r].
  - cbn in Hw'. rewrite Hrow in Hw'. injection Hw' as <-. congruence.
  - cbn in Hw'. rewrite lookup_insert_eq in Hw'. by injection Hw' as <-.
  - split; [done|]. cbn [apply_outcome wallets withdrawals trace settled].
    split; [unfold credit; by rewrite Hw|]. split; [by exists r|].
    exists evs. split; [done|]. by apply Hq.
Qed.

Lemma refund_skipped_without_wallet_witness :
  let wd := (1%nat, alice_withdrawal PROCESSING (Some "B1") (Some "I1")) in
  let s := mkState ∅ {[ 1%nat := wd.2 ]} [] [] in
  let s' := (updateWithdrawalStatuses_body mixed_batch_client wd s).2 in
  refundToWallet wd s = (inr tt, s)
  ∧ (updateWithdrawalStatuses_body mixed_batch_client wd s).1 = inr tt
  ∧ wallets s' = ∅
  ∧ (∃ r, withdrawals s'
          = <[1%nat := set_failureReason (set_status wd.2 FAILED) r]>
              (withdrawals s))
  ∧ ∃ evs, trace s' = trace s ++ evs ∧ Forall quiet evs.
Proof.
  intros wd s s'.
  destruct (refund_skipped_without_wallet mixed_batch_client wd s eq_refl)
    as [Hrefund Hbody].
  split; [exact Hrefund|].
  apply Hbody; [reflexivity | reflexivity |].
  eexists. split; [vm_compute; reflexivity | reflexivity].
Defined.

(** ** The scheduled update survives errors *)

Lemma body_fold_cons (client : Client) (wd : nat * Withdrawal)
    (l : list (nat * Withdrawal)) (s : State) :
  body_fold client (wd :: l) s = body_fold client l (body_state client wd s).
Proof. reflexivity. Qed.

Lemma trace_body_state (client : Client) (wd : nat * Withdrawal) (s : State) :
  trace (body_state client wd s) = trace s ++ (body_result client wd s).2.
Proof. apply trace_apply_outcome. Qed.

Lemma trace_body_fold (client : Client) (l : list (nat * Withdrawal)) (s : State) :
  trace (body_fold client l s) = trace s ++ fold_events client l s.
Proof.
  revert s. induction l as [|wd l IH]; intros s.
  - simpl. by rewrite app_nil_r.
  - rewrite body_fold_cons, IH, trace_body_state. cbn [fold_events].
    by rewrite app_assoc.
Qed.



Lemma no_call_outcome_events (o : Outcome) (wd : nat * Withdrawal) (s : State) :
  Forall (λ e, is_execute e = false) (outcome_events o wd s).
Proof.
  destruct o; simpl; [constructor | by repeat constructor |].
  unfold refund_events. destruct (wallets s !! _); by repeat constructor.
Qed.

Lemma no_call_scan_events (wd : nat * Withdrawal) (count : nat)
    (items : list Item) (s : State) :
  Forall (λ e, is_execute e = false) (scan_events wd count items s).
Proof.
  unfold scan_events. apply Forall_app. split.
  - induction items as [|item rest IH]; simpl; [constructor|].
    constructor; [done|]. by destruct (scan_pred wd.2 count item).
  - destruct (List.find _ _); [|constructor].
    constructor; [done|]. apply no_call_outcome_events.
Qed.






Lemma elem_of_processingWithdrawals (s : State) (i : nat) (w : Withdrawal) :
  (i, w) ∈ processingWithdrawals s
  ↔ withdrawals s !! i = Some w ∧ status w = PROCESSING.
Proof.
  unfold processingWithdrawals.
  rewrite elem_of_map_to_list, map_lookup_filter_Some. done.
Qed.




(** The same run, computed: the fetch for withdrawal 1 fails and withdrawal 2
    is completed all the same. *)
Example flaky_update_completes_the_other :
  let s' := (updateWithdrawalStatuses flaky_client two_processing_state).2 in
  status <$> withdrawals s' !! 1%nat = Some PROCESSING
  ∧ status <$> withdrawals s' !! 2%nat = Some COMPLETED.
Proof. vm_compute. done. Qed.

(** ** Writes to withdrawal rows *)

Lemma withdrawal_saves_app (evs1 evs2 : list Event) :
  withdrawal_saves (evs1 ++ evs2) = withdrawal_saves evs1 ++ withdrawal_saves evs2.
Proof. apply omap_app. Qed.

Lemma withdrawal_saves_outcome_events (o : Outcome) (wd : nat * Withdrawal)
    (s : State) :
  withdrawal_saves (outcome_events o wd s) = outcome_saves o wd.
Proof.
  destruct o; try reflexivity. unfold outcome_events, refund_events.
  rewrite withdrawal_saves_app. by destruct (wallets s !! _).
Qed.

Lemma withdrawal_saves_scan_lines (w : Withdrawal) (count : nat)
    (items : list Item) :
  withdrawal_saves (scan_lines w count items) = [].
Proof.
  induction items as [|item rest IH]; [done|]. simpl.
  by destruct (scan_pred w count item).
Qed.

Lemma withdrawal_saves_scan_events (wd : nat * Withdrawal) (count : nat)
    (items : list Item) (s : State) :
  withdrawal_saves (scan_events wd count items s)
  = outcome_saves (scan_outcome wd.2 count items) wd.
Proof.
  unfold scan_events, scan_outcome.
  rewrite withdrawal_saves_app, withdrawal_saves_scan_lines.
  destruct (List.find _ _) as [item|]; [|done].
  cbn [from_option app]. unfold withdrawal_saves. cbn [omap withdrawal_save].
  apply withdrawal_saves_outcome_events.
Qed.

Lemma withdrawal_saves_item_stage (client : Client) (wd : nat * Withdrawal)
    (s : State) :
  withdrawal_saves (item_stage client wd s).2
  = outcome_saves (item_stage client wd s).1 wd.
Proof.
  unfold item_stage. destruct (truthy (paypalPayoutItemId wd.2)); [|done].
  destruct (bool_decide (status wd.2 = PROCESSING)); [|done].
  destruct (itemStatus_of _) as [e|st]; [done|]. cbn [fst snd].
  unfold withdrawal_saves. cbn [omap withdrawal_save].
  apply withdrawal_saves_outcome_events.
Qed.

Lemma withdrawal_saves_body (client : Client) (wd : nat * Withdrawal) (s : State) :
  withdrawal_saves (body_result client wd s).2
  = outcome_saves (body_result client wd s).1 wd.
Proof.
  unfold body_result. destruct (truthy (paypalBatchId wd.2)) as [b|]; [|done].
  destruct (payoutStatus_of _ _) as [e|ps]; [done|]. cbv zeta.
  pose proof (withdrawal_saves_scan_events wd (length (ps_items ps))
                (ps_items ps) s) as Hscan.
  destruct (scan_outcome wd.2 (length (ps_items ps)) (ps_items ps)) eqn:Ho;
    cbn [fst snd].
  - rewrite withdrawal_saves_app, withdrawal_saves_item_stage.
    rewrite !withdrawal_saves_app, Hscan. done.
  - rewrite !withdrawal_saves_app, Hscan. done.
  - rewrite !withdrawal_saves_app, Hscan. done.
Qed.

Lemma replay_app (tbl : gmap nat Withdrawal) (l1 l2 : list (nat * Withdrawal)) :
  replay tbl (l1 ++ l2) = replay tbl l1 ≫= λ t, replay t l2.
Proof.
  revert tbl. induction l1 as [|[i w] l1 IH]; intros tbl; [done|].
  simpl. destruct (transition_ok _ _); [apply IH | done].
Qed.

Lemma replay_outcome (o : Outcome) (wd : nat * Withdrawal) (evs : list Event)
    (s : State) :
  withdrawals s !! wd.1 = Some wd.2 → status wd.2 = PROCESSING →
  replay (withdrawals s) (outcome_saves o wd)
  = Some (withdrawals (apply_outcome o wd evs s)).
Proof.
  intros Hw Hst. destruct o; [done | |]; simpl; rewrite Hw; simpl;
    by rewrite Hst.
Qed.

Lemma withdrawals_apply_outcome_ne (o : Outcome) (wd : nat * Withdrawal)
    (evs : list Event) (s : State) (j : nat) :
  j ≠ wd.1 → withdrawals (apply_outcome o wd evs s) !! j = withdrawals s !! j.
Proof. intros Hj. destruct o; [done | |]; simpl; by rewrite lookup_insert_ne. Qed.

(** What the loaded entities have in common with the table while the update
    runs: distinct ids, each entity equal to its row, each row PROCESSING. *)
Lemma loaded_step (client : Client) (wd : nat * Withdrawal)
    (l : list (nat * Withdrawal)) (s : State) :
  NoDup (wd :: l).*1 →
  (∀ x, x ∈ wd :: l → withdrawals s !! x.1 = Some x.2 ∧ status x.2 = PROCESSING) →
  NoDup l.*1
  ∧ ∀ x, x ∈ l →
         withdrawals (body_state client wd s) !! x.1 = Some x.2
         ∧ status x.2 = PROCESSING.
Proof.
  intros Hnd Hall. rewrite fmap_cons in Hnd. apply NoDup_cons in Hnd as [Hni Hnd].
  split; [done|]. intros x Hx.
  destruct (Hall x) as [Hrow Hst]; [by apply elem_of_cons; right|].
  split; [|done]. unfold body_state. rewrite withdrawals_apply_outcome_ne; [done|].
  intros E. apply Hni. rewrite <- E. by apply list_elem_of_fmap_2.
Qed.

Lemma loaded_processingWithdrawals (s : State) :
  NoDup (processingWithdrawals s).*1
  ∧ ∀ x, x ∈ processingWithdrawals s →
         withdrawals s !! x.1 = Some x.2 ∧ status x.2 = PROCESSING.
Proof.
  split; [apply NoDup_fst_map_to_list|].
  intros [i w] Hx. by apply elem_of_processingWithdrawals.
Qed.

(** ** Operations as sequences of atomic changes *)

Lemma ignore_state {A} (m : M A) (s : State) : (ignore m s).2 = (m s).2.
Proof. unfold ignore. rewrite bind_run. by destruct (m s) as [[e|a] s']. Qed.

Lemma validated_cases (c : string) (a : Z) (s : State) :
  (∃ w email, validated c a w email s)
  ∨ (a ≤ 0 ∨ a < 5 ∨ wallets s !! c = None ∨
     ∃ w, wallets s !! c = Some w
          ∧ (truthy (paypalEmail w) = None ∨ balance w < a)).
Proof.
  destruct (Z.lt_ge_cases a 5) as [?|Ha]; [by right; right; left|].
  destruct (wallets s !! c) as [w|] eqn:Hw; [|by right; right; right; left].
  destruct (truthy (paypalEmail w)) as [email|] eqn:He.
  - destruct (Z.lt_ge_cases (balance w) a) as [Hb|Hb].
    + right; right; right; right. exists w. split; [done|]. by right.
    + left. by exists w, email.
  - right; right; right; right. exists w. split; [done|]. by left.
Qed.

Lemma atomic_logged (l : LogLine) (s : State) : atomic s (logged l s).
Proof. by apply (atomic_trace s [Console l]). Qed.

Lemma atomic_called (req : Request) (s : State) : atomic s (called req s).
Proof. by apply (atomic_trace s [Execute req]). Qed.

Lemma atomic_body_fold (client : Client) (l : list (nat * Withdrawal))
    (s : State) :
  NoDup l.*1 →
  (∀ x, x ∈ l → withdrawals s !! x.1 = Some x.2 ∧ status x.2 = PROCESSING) →
  rtc atomic s (body_fold client l s).
Proof.
  revert s. induction l as [|wd l IH]; intros s Hnd Hall; [apply rtc_refl|].
  rewrite body_fold_cons.
  destruct (Hall wd) as [Hrow Hst]; [apply list_elem_of_here|].
  destruct (loaded_step client wd l s Hnd Hall) as [Hnd' Hall'].
  eapply rtc_l; [|exact (IH _ Hnd' Hall')].
  apply atomic_outcome; [done | done | apply withdrawal_saves_body].
Qed.

Lemma step_atomic (client : Client) (s : State) (op : Op) :
  rtc atomic s (step client s op).
Proof.
  unfold step. destruct op as [c|c e|c a|c a| |id]; cbn [perform].
  - rewrite ignore_state. unfold createWallet. unfold_M.
    destruct (wallets s !! c) eqn:Hw; [apply rtc_refl|].
    apply rtc_once. by apply atomic_create.
  - rewrite ignore_state. unfold linkPayPal. unfold_M.
    destruct (wallets s !! c) as [w|] eqn:Hw; [|apply rtc_refl].
    apply rtc_once. by apply atomic_link.
  - unfold deposit. destruct (wallets s !! c) as [w|] eqn:Hw; [|apply rtc_refl].
    apply rtc_once. by apply atomic_deposit.
  - rewrite ignore_state.
    destruct (validated_cases c a s) as [(w & email & Hv)|Hinv].
    + rewrite (requestWithdrawal_run client c a w email s Hv).
      apply rtc_once. by apply atomic_submit.
    + destruct (requestWithdrawal_rejected client c a s Hinv) as [m ->].
      apply rtc_refl.
  - rewrite updateWithdrawalStatuses_run. cbn [snd].
    destruct (loaded_processingWithdrawals s) as [Hnd Hall].
    eapply rtc_l; [apply (atomic_logged LogStarting)|].
    eapply rtc_l; [apply atomic_logged|].
    eapply rtc_r; [|apply atomic_logged].
    by apply atomic_body_fold.
  - rewrite ignore_state.
    destruct (withdrawals s !! id) as [w|] eqn:Hw.
    2: { rewrite (forceCheckWithdrawal_not_found client id s Hw).
         apply rtc_refl. }
    destruct (decide (status w = PROCESSING)) as [Hst|Hst].
    2: { rewrite (forceCheckWithdrawal_not_processing client id w s Hw Hst).
         apply rtc_refl. }
    destruct (truthy (paypalBatchId w)) as [b|] eqn:Hb.
    2: { rewrite (forceCheckWithdrawal_no_batch client id w s Hw Hst Hb).
         apply rtc_refl. }
    rewrite (forceCheckWithdrawal_run client id w b s Hw Hst Hb).
    destruct (payoutStatus_of _ _) as [e|ps];
      [apply rtc_once, atomic_called|].
    destruct (ps_items ps) as [|item rest]; [apply rtc_once, atomic_called|].
    apply rtc_once, atomic_outcome; [done | done |].
    unfold withdrawal_saves. cbn [omap withdrawal_save].
    apply withdrawal_saves_outcome_events.
Qed.

Lemma run_atomic (client : Client) (ops : list Op) (s : State) :
  rtc atomic s (run client ops s).
Proof.
  revert s. induction ops as [|op ops IH]; intros s; [apply rtc_refl|].
  simpl. eapply rtc_trans; [apply step_atomic | apply IH].
Qed.

(** ** Terminal withdrawals are not written *)

Lemma continues_refl (s : State) : continues s s.
Proof. exists []. by rewrite app_nil_r. Qed.

Lemma continues_trans (s1 s2 s3 : State) :
  continues s1 s2 → continues s2 s3 → continues s1 s3.
Proof.
  intros (evs1 & Ht1 & Hr1) (evs2 & Ht2 & Hr2). exists (evs1 ++ evs2). split.
  - by rewrite Ht2, Ht1, app_assoc.
  - rewrite withdrawal_saves_app, replay_app, Hr1. exact Hr2.
Qed.

Lemma atomic_continues (s s' : State) : atomic s s' → continues s s'.
Proof.
  intros H. destruct H as [s evs Hevs|s c Hc|s c e w Hw|s c a w Hw
                          |s c a w email r Hv|s o wd evs Hrow Hst Hevs].
  - exists evs. by rewrite Hevs.
  - by eexists [_].
  - by eexists [_].
  - by eexists [_].
  - unfold submitted_state, submission_trace. destruct r as [e|pr].
    + eexists [_; _; _; _; _]. cbn [trace withdrawals].
      split; [by rewrite <- !app_assoc|].
      cbn. rewrite fresh_withdrawal_id. cbn. by rewrite lookup_insert_eq.
    + eexists [_; _; _; _]. cbn [trace withdrawals].
      split; [by rewrite <- !app_assoc|].
      cbn. rewrite fresh_withdrawal_id. cbn. by rewrite lookup_insert_eq.
  - exists evs. split; [apply trace_apply_outcome|].
    rewrite Hevs. by apply replay_outcome.
Qed.

Lemma rtc_atomic_continues (s s' : State) : rtc atomic s s' → continues s s'.
Proof.
  induction 1 as [s|s1 s2 s3 H _ IH]; [apply continues_refl|].
  eapply continues_trans; [by apply atomic_continues | exact IH].
Qed.

Lemma replay_terminal (tbl tbl' : gmap nat Withdrawal)
    (saves : list (nat * Withdrawal)) (i : nat) (w : Withdrawal) :
  replay tbl saves = Some tbl' → tbl !! i = Some w → terminal (status w) →
  tbl' !! i = Some w ∧ ∀ w', (i, w') ∉ saves.
Proof.
  revert tbl. induction saves as [|[j x] saves IH]; intros tbl Hr Hw Ht.
  - injection Hr as <-. split; [done|]. intros w'. apply not_elem_of_nil.
  - simpl in Hr.
    destruct (transition_ok (status <$> tbl !! j) (status x)) eqn:Hok; [|done].
    assert (Hne : j ≠ i).
    { intros ->. rewrite Hw in Hok. simpl in Hok.
      destruct Ht as [Ht|Ht]; rewrite Ht in Hok; by destruct (status x). }
    destruct (IH _ Hr) as [Hrow Hno]; [by rewrite lookup_insert_ne | done |].
    split; [done|]. intros w' Hin. apply elem_of_cons in Hin as [[= E _]|Hin].
    + by apply Hne.
    + by apply (Hno w').
Qed.

Lemma elem_of_withdrawal_saves (evs : list Event) (i : nat) (w : Withdrawal) :
  SaveWithdrawal i w ∈ evs ↔ (i, w) ∈ withdrawal_saves evs.
Proof.
  unfold withdrawal_saves. rewrite list_elem_of_omap. split.
  - intros H. by exists (SaveWithdrawal i w).
  - intros (e & He & Hs). destruct e; try done. by injection Hs as -> ->.
Qed.

Lemma checks_outcome_events (i : nat) (o : Outcome) (wd : nat * Withdrawal)
    (s : State) :
  Forall (λ e, foreign_check i e = false) (outcome_events o wd s).
Proof.
  destruct o; simpl; [constructor | by repeat constructor |].
  unfold refund_events. destruct (wallets s !! _); by repeat constructor.
Qed.

Lemma checks_scan_events (i : nat) (wd : nat * Withdrawal) (count : nat)
    (items : list Item) (s : State) :
  Forall (λ e, foreign_check i e = false) (scan_events wd count items s).
Proof.
  unfold scan_events. apply Forall_app. split.
  - induction items as [|item rest IH]; simpl; [constructor|].
    constructor; [done|]. by destruct (scan_pred wd.2 count item).
  - destruct (List.find _ _); [|constructor].
    constructor; [done|]. apply checks_outcome_events.
Qed.

Lemma checks_body (client : Client) (wd : nat * Withdrawal) (s : State) :
  Forall (λ e, foreign_check wd.1 e = false) (body_result client wd s).2.
Proof.
  unfold body_result. destruct (truthy (paypalBatchId wd.2)) as [b|];
    [|constructor].
  assert (Hself : foreign_check wd.1 (Console (LogChecking wd.1 b)) = false).
  { simpl. by rewrite Nat.eqb_refl. }
  destruct (payoutStatus_of _ _) as [e|ps]; [by repeat constructor|]. cbv zeta.
  assert (Hpre : Forall (λ e, foreign_check wd.1 e = false)
    ([Console (LogChecking wd.1 b); Execute (PayoutsGetRequest b)]
       ++ [Console (LogBatchStatus (ps_status ps));
           Console (LogItemsCount (length (ps_items ps)))]
       ++ scan_events wd (length (ps_items ps)) (ps_items ps) s)).
  { repeat (constructor; [done|]). apply checks_scan_events. }
  destruct (scan_outcome wd.2 (length (ps_items ps)) (ps_items ps));
    cbn [snd]; [|done..].
  apply Forall_app. split; [done|]. unfold item_stage.
  destruct (truthy (paypalPayoutItemId wd.2)); [|constructor].
  destruct (bool_decide (status wd.2 = PROCESSING)); [|constructor].
  destruct (itemStatus_of _); cbn [snd]; [by repeat constructor|].
  repeat (constructor; [done|]). apply checks_outcome_events.
Qed.

Lemma checks_fold (client : Client) (l : list (nat * Withdrawal)) (s : State)
    (i : nat) (b : string) :
  Console (LogChecking i b) ∈ fold_events client l s → i ∈ l.*1.
Proof.
  revert s. induction l as [|wd l IH]; intros s; [by intros ?%elem_of_nil|].
  cbn [fold_events]. rewrite elem_of_app, fmap_cons, elem_of_cons.
  intros [Hin|Hin]; [left | right; by eapply IH].
  pose proof (checks_body client wd s) as Hc.
  rewrite Forall_forall in Hc. specialize (Hc _ Hin). simpl in Hc.
  apply negb_false_iff in Hc. by apply Nat.eqb_eq in Hc.
Qed.

Lemma trace_updateWithdrawalStatuses (client : Client) (s : State) :
  trace (updateWithdrawalStatuses client s).2
  = trace s
      ++ [Console LogStarting;
          Console (LogFound (length (processingWithdrawals s)))]
      ++ fold_events client (processingWithdrawals s)
           (logged (LogFound (length (processingWithdrawals s)))
              (logged LogStarting s))
      ++ [Console LogUpdateCompleted].
Proof.
  rewrite updateWithdrawalStatuses_run. cbn [snd]. unfold logged at 1.
  cbn [trace]. rewrite trace_body_fold. unfold logged. cbn [trace].
  by rewrite <- !app_assoc.
Qed.

(** C6. Whatever the operation, the withdrawal table after it is the table
    before it with the operation's saves applied in order, and every one of
    these saves is the creation of a PENDING row or one of the transitions
    PENDING to PROCESSING, PENDING to FAILED, PROCESSING to COMPLETED,
    PROCESSING to FAILED.  Hence a row that is COMPLETED or FAILED is the same
    row afterwards and no save names its id.  The scheduled update starts a
    check only for rows that are PROCESSING, and forceCheckWithdrawal on a row
    that is not PROCESSING returns its message with the state untouched. *)
Theorem terminal_withdrawals_never_written (client : Client) (op : Op)
    (s : State) :
  ∃ evs,
    trace (step client s op) = trace s ++ evs
    ∧ replay (withdrawals s) (withdrawal_saves evs)
      = Some (withdrawals (step client s op))
    ∧ (∀ i w, withdrawals s !! i = Some w → terminal (status w) →
              withdrawals (step client s op) !! i = Some w
              ∧ ∀ w', SaveWithdrawal i w' ∉ evs)
    ∧ (op = UpdateWithdrawalStatuses →
       ∀ i b, Console (LogChecking i b) ∈ evs →
              ∃ w, withdrawals s !! i = Some w ∧ status w = PROCESSING)
    ∧ (∀ id w, op = ForceCheckWithdrawal id →
               withdrawals s !! id = Some w → status w ≠ PROCESSING →
               forceCheckWithdrawal client id s
               = (inr (NotProcessing "Withdrawal is not in processing status"), s)
               ∧ evs = []).
Proof.
  destruct (rtc_atomic_continues _ _ (step_atomic client s op))
    as (evs & Htr & Hre).
  exists evs. split; [done|]. split; [done|]. split; [|split].
  - intros i w Hw Ht.
    destruct (replay_terminal _ _ _ i w Hre Hw Ht) as [Hrow Hno].
    split; [done|]. intros w' Hin. apply (Hno w').
    by apply elem_of_withdrawal_saves.
  - intros -> i b Hin. unfold step in Htr. cbn [perform] in Htr.
    rewrite trace_updateWithdrawalStatuses in Htr.
    apply app_inv_head in Htr. subst evs.
    rewrite !elem_of_app, !elem_of_cons, !elem_of_nil in Hin.
    destruct Hin as [[?|[?|?]]|[Hin|[?|?]]]; try done.
    apply checks_fold in Hin.
    apply list_elem_of_fmap in Hin as ([j w] & -> & Hin).
    apply elem_of_processingWithdrawals in Hin. by exists w.
  - intros id w -> Hw Hst.
    pose proof (forceCheckWithdrawal_not_processing client id w s Hw Hst) as H.
    split; [done|].
    unfold step in Htr. cbn [perform] in Htr. rewrite ignore_state, H in Htr.
    cbn [snd] in Htr. rewrite <- (app_nil_r (trace s)) in Htr at 1.
    by apply app_inv_head in Htr.
Qed.

Lemma terminal_withdrawals_never_written_witness :
  ∃ evs,
    trace (step success_client settled_state UpdateWithdrawalStatuses) = evs
    ∧ withdrawals (step success_client settled_state UpdateWithdrawalStatuses)
        !! 1%nat
      = Some (alice_withdrawal COMPLETED (Some "B1") (Some "I1"))
    ∧ (∀ w', SaveWithdrawal 1 w' ∉ evs)
    ∧ forceCheckWithdrawal success_client 1 settled_state
      = (inr (NotProcessing "Withdrawal is not in processing status"),
         settled_state).
Proof.
  destruct (terminal_withdrawals_never_written success_client
              UpdateWithdrawalStatuses settled_state)
    as (evs & Htr & _ & Hterm & _).
  destruct (Hterm 1%nat (alice_withdrawal COMPLETED (Some "B1") (Some "I1"))
              eq_refl (or_introl eq_refl)) as [Hrow Hno].
  destruct (terminal_withdrawals_never_written success_client
              (ForceCheckWithdrawal 1) settled_state)
    as (evs2 & _ & _ & _ & _ & Hforce).
  destruct (Hforce 1%nat (alice_withdrawal COMPLETED (Some "B1") (Some "I1"))
              eq_refl eq_refl) as [Hmsg _]; [discriminate|].
  exists evs. by rewrite Htr.
Defined.

(** ** Sums over the withdrawal table *)












(** ** Atomic changes keep the balances *)














(** ** The scenarios of the specification, computed *)

(** Balance 100, withdrawal of 20 submitted: balance 80, row PROCESSING with
    its batch id; the update reports SUCCESS: row COMPLETED, balance 80. *)
Example scenario_success :
  let s1 := run accepting_client (take 4 scenario) init in
  let s2 := run accepting_client scenario init in
  balance <$> wallets s1 !! "alice" = Some 80
  ∧ (λ w, (status w, paypalBatchId w)) <$> withdrawals s1 !! 0%nat
    = Some (PROCESSING, Some "B1")
  ∧ balance <$> wallets s2 !! "alice" = Some 80
  ∧ status <$> withdrawals s2 !! 0%nat = Some COMPLETED.
Proof. vm_compute. done. Qed.

(** Same setup, the update reports a failed item: row FAILED, balance 100. *)
Example scenario_failure :
  let s2 := run refusing_client scenario init in
  balance <$> wallets s2 !! "alice" = Some 100
  ∧ (λ w, (status w, failureReason w)) <$> withdrawals s2 !! 0%nat
    = Some (FAILED, Some "PayPal transaction failed").
Proof. vm_compute. done. Qed.

(** On the batch [I1 failed; I2 pending] the scheduled update, which matches
    the stored item id I2, leaves the withdrawal PROCESSING, whereas
    forceCheckWithdrawal, which takes the first item, fails it. *)
Example scheduled_update_matches_item_id :
  let s' := (updateWithdrawalStatuses mixed_batch_client processing_state).2 in
  status <$> withdrawals s' !! 1%nat = Some PROCESSING
  ∧ balance <$> wallets s' !! "alice" = Some 80
  ∧ status <$> withdrawals
                 (forceCheckWithdrawal mixed_batch_client 1 processing_state).2
               !! 1%nat
    = Some FAILED.
Proof. vm_compute. done. Qed.

(** * Further properties of the wallet service and the adapter *)

(** ** createWallet, getWalletByCreatorId, linkPayPal *)

(** X1. createWallet never touches an existing wallet: it throws and leaves
    the state as it was.  When the creator has no wallet it stores one with
    balance 0, not linked and not verified, leaving the other wallets and the
    withdrawals alone; getWalletByCreatorId then returns that wallet, and a
    second createWallet throws. *)
Theorem createWallet_round_trip (c : string) (s : State) :
  (∀ w, wallets s !! c = Some w →
        createWallet c s
        = (inl (BadRequestException "Wallet already exists for this creator."), s))
  ∧ (wallets s !! c = None →
     let s' := (createWallet c s).2 in
     (createWallet c s).1 = inr (mkWallet 0 None false)
     ∧ wallets s' = <[c := mkWallet 0 None false]> (wallets s)
     ∧ withdrawals s' = withdrawals s
     ∧ getWalletByCreatorId c s' = (inr (mkWallet 0 None false), s')
     ∧ createWallet c s'
       = (inl (BadRequestException "Wallet already exists for this creator."), s')).
Proof.
  split.
  - intros w Hw. unfold createWallet. unfold_M. by rewrite Hw.
  - intros Hc. unfold createWallet, getWalletByCreatorId. unfold_M.
    rewrite Hc. cbn. rewrite lookup_insert_eq. done.
Qed.

Lemma createWallet_round_trip_witness :
  createWallet "alice" alice_state
  = (inl (BadRequestException "Wallet already exists for this creator."),
     alice_state)
  ∧ (createWallet "bob" alice_state).1 = inr (mkWallet 0 None false)
  ∧ getWalletByCreatorId "bob" (createWallet "bob" alice_state).2
    = (inr (mkWallet 0 None false), (createWallet "bob" alice_state).2).
Proof.
  destruct (createWallet_round_trip "alice" alice_state) as [Hold _].
  destruct (createWallet_round_trip "bob" alice_state) as [_ Hnew].
  split; [exact (Hold _ eq_refl)|].
  destruct (Hnew eq_refl) as (H1 & _ & _ & H2 & _). by split.
Defined.

(** getWalletByCreatorId reads only: it returns the stored wallet, or throws
    a message that names the creator, and the state is the one it was given. *)
Lemma getWalletByCreatorId_reads_only (c : string) (s : State) :
  (getWalletByCreatorId c s).2 = s
  ∧ (getWalletByCreatorId c s).1
    = match wallets s !! c with
      | Some w => inr w
      | None =>
          inl (BadRequestException ("Wallet not found for creatorId: " +:+ c))
      end.
Proof.
  unfold getWalletByCreatorId. unfold_M. by destruct (wallets s !! c).
Qed.

(** X2. linkPayPal on a creator without wallet throws and changes nothing.
    Otherwise it stores the email and the verified flag and keeps the
    balance; the other wallets and the withdrawals stay as they were; linking
    the same email again gives the same wallet table, and a later link
    replaces an earlier one. *)
Theorem linkPayPal_keeps_balance (c e : string) (s : State) :
  (wallets s !! c = None →
   linkPayPal c e s = (inl (BadRequestException "Wallet not found"), s))
  ∧ (∀ w, wallets s !! c = Some w →
     let s' := (linkPayPal c e s).2 in
     (linkPayPal c e s).1 = inr (mkWallet (balance w) (Some e) true)
     ∧ wallets s' = <[c := mkWallet (balance w) (Some e) true]> (wallets s)
     ∧ withdrawals s' = withdrawals s
     ∧ wallets (linkPayPal c e s').2 = wallets s'
     ∧ ∀ e2, wallets (linkPayPal c e2 s').2 = wallets (linkPayPal c e2 s).2).
Proof.
  split.
  - intros Hc. unfold linkPayPal. unfold_M. by rewrite Hc.
  - intros w Hw. unfold linkPayPal. unfold_M. rewrite Hw. cbn.
    rewrite lookup_insert_eq. cbn.
    split; [done|]. split; [done|]. split; [done|].
    split; [by rewrite insert_insert_eq|].
    intros e2. by rewrite insert_insert_eq.
Qed.

Lemma linkPayPal_keeps_balance_witness :
  let s' := (linkPayPal "alice" "new@example.org" alice_state).2 in
  linkPayPal "bob" "b@example.org" alice_state
  = (inl (BadRequestException "Wallet not found"), alice_state)
  ∧ wallets s' !! "alice" = Some (mkWallet 100 (Some "new@example.org") true)
  ∧ wallets (linkPayPal "alice" "new@example.org" s').2 = wallets s'.
Proof.
  intros s'.
  destruct (linkPayPal_keeps_balance "bob" "b@example.org" alice_state)
    as [Hnone _].
  destruct (linkPayPal_keeps_balance "alice" "new@example.org" alice_state)
    as [_ Hsome].
  split; [exact (Hnone eq_refl)|].
  destruct (Hsome _ eq_refl) as (_ & Hw & _ & Hidem & _).
  split; [|exact Hidem]. subst s'. rewrite Hw. apply lookup_insert_eq.
Defined.

(** ** requestWithdrawal: messages, the provider call, the accepted request *)

(** X3. The validation tests of requestWithdrawal report in a fixed order,
    each with its own message: the amount is tested before the wallet is
    looked up, the link before the balance.  A request of exactly the
    balance, and of exactly 5, is not rejected by these tests. *)
Theorem requestWithdrawal_messages (client : Client) (c : string) (a : Z)
    (s : State) :
  (a ≤ 0 →
   requestWithdrawal client c a s
   = (inl (BadRequestException "Invalid withdrawal amount"), s))
  ∧ (0 < a < 5 →
     requestWithdrawal client c a s
     = (inl (BadRequestException "Minimum withdrawal amount is $5"), s))
  ∧ (5 ≤ a → wallets s !! c = None →
     requestWithdrawal client c a s
     = (inl (BadRequestException "Wallet not found"), s))
  ∧ (∀ w, 5 ≤ a → wallets s !! c = Some w → truthy (paypalEmail w) = None →
     requestWithdrawal client c a s
     = (inl (BadRequestException "Please link your PayPal account first"), s))
  ∧ (∀ w email, 5 ≤ a → wallets s !! c = Some w →
     truthy (paypalEmail w) = Some email → balance w < a →
     requestWithdrawal client c a s
     = (inl (BadRequestException "Insufficient balance"), s))
  ∧ (∀ w email, 5 ≤ a → wallets s !! c = Some w →
     truthy (paypalEmail w) = Some email → a ≤ balance w →
     (requestWithdrawal client c a s).2 ≠ s).
Proof.
  unfold requestWithdrawal. repeat apply conj.
  - intros Ha. by destruct (Z.leb_spec a 0); [|lia].
  - intros Ha. destruct (Z.leb_spec a 0); [lia|].
    by destruct (Z.ltb_spec a 5); [|lia].
  - intros Ha Hc. destruct (Z.leb_spec a 0); [lia|].
    destruct (Z.ltb_spec a 5); [lia|]. unfold_M. by rewrite Hc.
  - intros w Ha Hc He. destruct (Z.leb_spec a 0); [lia|].
    destruct (Z.ltb_spec a 5); [lia|]. unfold_M. by rewrite Hc, He.
  - intros w email Ha Hc He Hb. destruct (Z.leb_spec a 0); [lia|].
    destruct (Z.ltb_spec a 5); [lia|]. unfold_M. rewrite Hc, He.
    by destruct (Z.ltb_spec (balance w) a); [|lia].
  - intros w email Ha Hc He Hb.
    fold (requestWithdrawal client c a).
    assert (Hv : validated c a w email s) by done.
    rewrite (requestWithdrawal_run client c a w email s Hv). cbn [snd].
    intros E. apply (f_equal trace) in E. unfold submitted_state in E.
    destruct (payoutResult_of _); cbn [trace] in E; unfold submission_trace in E;
      rewrite <- app_assoc in E; rewrite <- (app_nil_r (trace s)) in E at 2;
      by apply app_inv_head in E.
Qed.

Lemma requestWithdrawal_messages_witness :
  requestWithdrawal rejecting_client "nobody" 0 alice_state
  = (inl (BadRequestException "Invalid withdrawal amount"), alice_state)
  ∧ requestWithdrawal rejecting_client "nobody" 4 alice_state
    = (inl (BadRequestException "Minimum withdrawal amount is $5"), alice_state)
  ∧ requestWithdrawal rejecting_client "nobody" 5 alice_state
    = (inl (BadRequestException "Wallet not found"), alice_state)
  ∧ requestWithdrawal rejecting_client "bob" 5 two_wallet_state
    = (inl (BadRequestException "Please link your PayPal account first"),
       two_wallet_state)
  ∧ requestWithdrawal rejecting_client "alice" 101 alice_state
    = (inl (BadRequestException "Insufficient balance"), alice_state)
  ∧ (requestWithdrawal rejecting_client "alice" 100 alice_state).2 ≠ alice_state.
Proof.
  destruct (requestWithdrawal_messages rejecting_client "nobody" 0 alice_state)
    as (H1 & _).
  destruct (requestWithdrawal_messages rejecting_client "nobody" 4 alice_state)
    as (_ & H2 & _).
  destruct (requestWithdrawal_messages rejecting_client "nobody" 5 alice_state)
    as (_ & _ & H3 & _).
  destruct (requestWithdrawal_messages rejecting_client "bob" 5 two_wallet_state)
    as (_ & _ & _ & H4 & _).
  destruct (requestWithdrawal_messages rejecting_client "alice" 101 alice_state)
    as (_ & _ & _ & _ & H5 & _).
  destruct (requestWithdrawal_messages rejecting_client "alice" 100 alice_state)
    as (_ & _ & _ & _ & _ & H6).
  split; [apply H1; lia|]. split; [apply H2; lia|].
  split; [apply H3; [lia | reflexivity]|].
  split; [apply (H4 (mkWallet 7 None false)); [lia | reflexivity | reflexivity]|].
  split.
  - apply (H5 (mkWallet 100 (Some "alice@example.org") true) "alice@example.org");
      [lia | reflexivity | reflexivity | simpl; lia].
  - apply (H6 (mkWallet 100 (Some "alice@example.org") true) "alice@example.org");
      [lia | reflexivity | reflexivity | simpl; lia].
Defined.

Lemma executes_app (evs1 evs2 : list Event) :
  executes (evs1 ++ evs2) = executes evs1 ++ executes evs2.
Proof. apply omap_app. Qed.

Lemma trace_submitted_state (c : string) (a : Z) (w : Wallet) (email : string)
    (r : Exn + PayoutResult) (s : State) :
  ∃ evs, trace (submitted_state c a w email r s) = trace s ++ evs
         ∧ executes evs = [PayoutsPostRequest email a "USD"].
Proof.
  unfold submitted_state, submission_trace. destruct r as [e|pr]; cbn [trace].
  - eexists [_; _; _; _; _]. split; [by rewrite <- app_assoc | done].
  - eexists [_; _; _; _]. split; [by rewrite <- app_assoc | done].
Qed.

(** X4. requestWithdrawal calls the provider exactly when the request passes
    validation, and then exactly once: a payout to the email linked to the
    wallet, of the requested amount, in USD.  A rejected request adds nothing
    to the trace. *)
Theorem requestWithdrawal_provider_call (client : Client) (c : string) (a : Z)
    (s : State) :
  ∃ evs,
    trace (requestWithdrawal client c a s).2 = trace s ++ evs
    ∧ (∀ w email, validated c a w email s →
                  executes evs = [PayoutsPostRequest email a "USD"])
    ∧ ((∀ w email, ¬ validated c a w email s) → evs = []).
Proof.
  destruct (validated_cases c a s) as [(w & email & Hv)|Hinv].
  - rewrite (requestWithdrawal_run client c a w email s Hv). cbn [snd].
    destruct (trace_submitted_state c a w email
                (payoutResult_of
                   (client (submission_trace c a w s)
                           (PayoutsPostRequest email a "USD"))) s)
      as (evs & Htr & Hex).
    exists evs. split; [done|]. split.
    + intros w' email' (_ & Hw' & He' & _). destruct Hv as (_ & Hw & He & _).
      rewrite Hw in Hw'. injection Hw' as <-. rewrite He in He'.
      by injection He' as <-.
    + intros Hno. by destruct (Hno w email).
  - destruct (requestWithdrawal_rejected client c a s Hinv) as [m ->].
    exists []. split; [by rewrite app_nil_r|]. split; [|done].
    intros w email (Ha & Hw & He & Hb).
    destruct Hinv as [?|[?|[Hn|(w' & Hw' & Hn)]]]; [lia | lia | congruence |].
    assert (w' = w) as -> by congruence.
    destruct Hn as [Hn|Hn]; [congruence | lia].
Qed.

Lemma requestWithdrawal_provider_call_witness :
  ∃ evs,
    trace (requestWithdrawal accepting_client "alice" 20 alice_state).2 = evs
    ∧ executes evs = [PayoutsPostRequest "alice@example.org" 20 "USD"].
Proof.
  destruct (requestWithdrawal_provider_call accepting_client "alice" 20
              alice_state) as (evs & Htr & Hcall & _).
  exists evs. split; [exact Htr|].
  apply (Hcall (mkWallet 100 (Some "alice@example.org") true)).
  split; [lia|]. split; [reflexivity|]. split; [reflexivity|]. simpl. lia.
Defined.

(** X5. When the request passes validation and the adapter returns, the call
    returns the new row with the fixed message; the wallet is debited by
    exactly the amount and does not go below zero when it was not below the
    amount; the row is stored under a fresh id as PROCESSING, with the
    creator, the amount, the email linked at that moment, and the batch id and
    payout item id the adapter returned. *)
Theorem requestWithdrawal_submitted (client : Client) (c : string) (a : Z)
    (w : Wallet) (email : string) (s : State) (pr : PayoutResult) :
  validated c a w email s →
  (sendPayout client email a "USD" (submission_state c a w s)).1 = inr pr →
  let id := fresh (dom (withdrawals s)) in
  let row := mkWithdrawal c a PROCESSING (paypalEmail w) (pr_batchId pr)
                          (pr_payoutItemId pr) None in
  let s' := (requestWithdrawal client c a s).2 in
  (requestWithdrawal client c a s).1 = inr (id, row, submitted_message)
  ∧ withdrawals s !! id = None
  ∧ withdrawals s' = <[id := row]> (withdrawals s)
  ∧ wallets s' = <[c := set_balance w (balance w - a)]> (wallets s)
  ∧ 0 ≤ balance w - a
  ∧ deposits s' = deposits s.
Proof.
  intros Hv Hok id row s'. rewrite sendPayout_run in Hok. simpl in Hok.
  subst s'. rewrite (requestWithdrawal_run client c a w email s Hv).
  cbv zeta. rewrite Hok. cbn [fst snd]. unfold submitted_state.
  cbn [wallets withdrawals deposits]. destruct Hv as (Ha & Hw & He & Hb).
  split; [done|]. split; [apply fresh_withdrawal_id|].
  split; [by rewrite insert_insert_eq|]. split; [done|]. split; [lia | done].
Qed.

Lemma requestWithdrawal_submitted_witness :
  let s' := (requestWithdrawal accepting_client "alice" 100 alice_state).2 in
  wallets s' !! "alice" = Some (mkWallet 0 (Some "alice@example.org") true)
  ∧ withdrawals s' !! 0%nat
    = Some (mkWithdrawal "alice" 100 PROCESSING (Some "alice@example.org")
                         (Some "B1") (Some "I2") None).
Proof.
  intros s'.
  destruct (requestWithdrawal_submitted accepting_client "alice" 100
              (mkWallet 100 (Some "alice@example.org") true) "alice@example.org"
              alice_state (mkPayoutResult (Some "B1") (Some "PROCESSING") (Some "I2")))
    as (_ & _ & Hrows & Hwal & _).
  - split; [lia|]. split; [reflexivity|]. split; [reflexivity|]. simpl. lia.
  - reflexivity.
  - subst s'. rewrite Hrows, Hwal. split; reflexivity.
Defined.

(** ** The adapter *)







(** X6. sendPayout makes exactly one SDK call and writes no table.  It
    returns exactly when the SDK answers with a batch header; an SDK error
    and an answer without batch header both end in a BadRequestException
    whose message starts with the same fixed words, with the status code in
    brackets when the SDK error carries a non-zero one. *)
Theorem sendPayout_contract (client : Client) (email : string) (a : Z)
    (cur : string) (s : State) :
  let req := PayoutsPostRequest email a cur in
  let r := sendPayout client email a cur s in
  ledger r.2 = ledger s
  ∧ trace r.2 = trace s ++ [Execute req]
  ∧ (∀ e, r.1 = inl e → ∃ rest, exn_message e = "PayPal payout failed" +:+ rest)
  ∧ ((∃ pr, r.1 = inr pr)
     ↔ ∃ resp bh, client (trace s) req = inr resp
                  ∧ result resp ≫= batch_header = Some bh)
  ∧ (∀ err n, client (trace s) req = inl err → statusCode err = Some (S n) →
     r.1 = inl (BadRequestException
                  ("PayPal payout failed (" +:+ pretty (S n) +:+ "): "
                     +:+ interpolate (sdk_message err))))
  ∧ (∀ resp, client (trace s) req = inr resp →
     result resp ≫= batch_header = None →
     r.1 = inl (BadRequestException
                  "PayPal payout failed: Invalid PayPal response structure")).
Proof.
  intros req r. subst r. rewrite sendPayout_run. cbn [fst snd]. fold req.
  split; [done|]. split; [done|]. unfold payoutResult_of.
  split; [|split; [|split]].
  - intros e He. destruct (client (trace s) req) as [err|resp].
    + injection He as <-. unfold sendPayout_error.
      destruct (truthy_code (statusCode err)); by eexists.
    + destruct (result resp ≫= batch_header); [done|].
      injection He as <-. by eexists.
  - split.
    + intros (pr & Hpr). destruct (client (trace s) req) as [err|resp]; [done|].
      destruct (result resp ≫= batch_header) as [bh|] eqn:Hbh; [|done].
      by exists resp, bh.
    + intros (resp & bh & -> & ->). by eexists.
  - intros err n -> Hcode. unfold sendPayout_error. by rewrite Hcode.
  - intros resp -> ->. done.
Qed.

Lemma sendPayout_contract_witness :
  (sendPayout hollow_client "a@example.org" 20 "USD" alice_state).1
  = inl (BadRequestException
           "PayPal payout failed: Invalid PayPal response structure")
  ∧ (sendPayout rejecting_client "a@example.org" 20 "USD" alice_state).1
    = inl (BadRequestException "PayPal payout failed (422): Unprocessable").
Proof.
  destruct (sendPayout_contract hollow_client "a@example.org" 20 "USD"
              alice_state) as (_ & _ & _ & _ & _ & Hhollow).
  destruct (sendPayout_contract rejecting_client "a@example.org" 20 "USD"
              alice_state) as (_ & _ & _ & _ & Hcode & _).
  split.
  - apply (Hhollow (mkResponse None)); reflexivity.
  - apply (Hcode (mkSdkError (Some 422%nat) (Some "Unprocessable")) 421%nat);
      reflexivity.
Defined.





(** ** What no operation does to a row *)

Lemma keeps_refl (s : State) : keeps s s.
Proof. split; [intros i x Hx; by exists x | intros c w Hw; by exists w]. Qed.

Lemma keeps_trans (s1 s2 s3 : State) : keeps s1 s2 → keeps s2 s3 → keeps s1 s3.
Proof.
  intros [Hr1 Hw1] [Hr2 Hw2]. split.
  - intros i x Hx. destruct (Hr1 i x Hx) as (x2 & Hx2 & Hid2 & Hsame2).
    destruct (Hr2 i x2 Hx2) as (x3 & Hx3 & Hid3 & Hsame3).
    exists x3. split; [done|]. split; [congruence|].
    intros Hst. rewrite <- (Hsame2 Hst). apply Hsame3.
    by rewrite (Hsame2 Hst).
  - intros c w Hw. destruct (Hw1 c w Hw) as [w2 Hw2']. by eapply Hw2.
Qed.

Lemma keeps_wallet_write (s : State) (c : string) (w : Wallet)
    (ds : list (string * Z)) (tr : list Event) :
  keeps s (mkState (<[c := w]> (wallets s)) (withdrawals s) ds tr).
Proof.
  split; cbn [wallets withdrawals].
  - intros i x Hx. by exists x.
  - intros c' w' Hw'. apply lookup_insert_is_Some'. right. by exists w'.
Qed.

Lemma atomic_keeps (s s' : State) : atomic s s' → keeps s s'.
Proof.
  intros H. destruct H as [s evs Hevs|s c Hc|s c e w Hw|s c a w Hw
                          |s c a w email r Hv|s o wd evs Hrow Hst Hevs].
  - split; [intros i x Hx; by exists x | intros c w Hw; by exists w].
  - apply keeps_wallet_write.
  - apply keeps_wallet_write.
  - apply keeps_wallet_write.
  - pose proof (fresh_withdrawal_id s) as Hfresh.
    assert (Hrows : ∀ (saved : Withdrawal) i x, withdrawals s !! i = Some x →
              <[fresh (dom (withdrawals s)) := saved]>
                (<[fresh (dom (withdrawals s)) := new_withdrawal c a w]>
                   (withdrawals s)) !! i = Some x).
    { intros saved i x Hx. rewrite insert_insert_eq, lookup_insert_ne; [done|].
      intros E. rewrite E in Hfresh. congruence. }
    unfold submitted_state. destruct r as [e|pr]; cbv zeta; split;
      cbn [wallets withdrawals].
    + intros i x Hx. exists x. by rewrite (Hrows _ i x Hx).
    + intros c' w' Hw'. do 2 (apply lookup_insert_is_Some'; right). by exists w'.
    + intros i x Hx. exists x. by rewrite (Hrows _ i x Hx).
    + intros c' w' Hw'. apply lookup_insert_is_Some'; right. by exists w'.
  - split.
    + intros i x Hx. destruct (decide (i = wd.1)) as [->|Hne].
      * rewrite Hrow in Hx. injection Hx as <-.
        destruct o; cbn [apply_outcome withdrawals settled].
        -- by exists wd.2.
        -- rewrite lookup_insert_eq. eexists. split; [done|]. split; [done|].
           by rewrite Hst.
        -- rewrite lookup_insert_eq. eexists. split; [done|]. split; [done|].
           by rewrite Hst.
      * exists x. by rewrite withdrawals_apply_outcome_ne.
    + intros c w Hw. destruct o; cbn [apply_outcome wallets]; [by exists w..|].
      unfold credit. destruct (wallets s !! creatorId wd.2); [|by exists w].
      apply lookup_insert_is_Some'. right. by exists w.
Qed.

Lemma rtc_atomic_keeps (s s' : State) : rtc atomic s s' → keeps s s'.
Proof.
  induction 1 as [s|s1 s2 s3 H _ IH]; [apply keeps_refl|].
  eapply keeps_trans; [by apply atomic_keeps | exact IH].
Qed.

(** X9. Through any sequence of operations nothing is deleted and rows keep
    their identity: a withdrawal row that exists keeps its creator, amount,
    destination email, batch id and payout item id; a row that is not
    PROCESSING is not changed at all; a wallet that exists keeps existing. *)
Theorem rows_keep_identity (client : Client) (ops : list Op) (s : State) :
  (∀ i x, withdrawals s !! i = Some x →
          ∃ x', withdrawals (run client ops s) !! i = Some x'
                ∧ creatorId x' = creatorId x ∧ amount x' = amount x
                ∧ wd_paypalEmail x' = wd_paypalEmail x
                ∧ paypalBatchId x' = paypalBatchId x
                ∧ paypalPayoutItemId x' = paypalPayoutItemId x
                ∧ (status x ≠ PROCESSING → x' = x))
  ∧ (∀ c w, wallets s !! c = Some w → is_Some (wallets (run client ops s) !! c)).
Proof.
  destruct (rtc_atomic_keeps _ _ (run_atomic client ops s)) as [Hrows Hwal].
  split; [|done]. intros i x Hx.
  destruct (Hrows i x Hx) as (x' & Hx' & Hid & Hsame). exists x'.
  unfold identity in Hid. injection Hid as -> -> -> -> ->. done.
Qed.

Lemma rows_keep_identity_witness :
  ∃ x',
    withdrawals (run refusing_client [UpdateWithdrawalStatuses] processing_state)
      !! 1%nat = Some x'
    ∧ creatorId x' = "alice" ∧ amount x' = 20
    ∧ paypalBatchId x' = Some "B1" ∧ paypalPayoutItemId x' = Some "I2"
    ∧ withdrawals (run refusing_client [UpdateWithdrawalStatuses] settled_state)
        !! 1%nat
      = Some (alice_withdrawal COMPLETED (Some "B1") (Some "I1")).
Proof.
  destruct (rows_keep_identity refusing_client [UpdateWithdrawalStatuses]
              processing_state) as [Hrows _].
  destruct (Hrows 1%nat (alice_withdrawal PROCESSING (Some "B1") (Some "I2"))
              eq_refl) as (x' & Hx' & Hc & Ha & _ & Hb & Hi & _).
  destruct (rows_keep_identity refusing_client [UpdateWithdrawalStatuses]
              settled_state) as [Hrows2 _].
  destruct (Hrows2 1%nat (alice_withdrawal COMPLETED (Some "B1") (Some "I1"))
              eq_refl) as (y & Hy & _ & _ & _ & _ & _ & Hsame).
  exists x'. repeat (split; [done|]). rewrite Hy. f_equal. by apply Hsame.
Defined.

(** ** Operations other than deposits *)

Lemma atomic_deposits (s s' : State) :
  atomic s s' →
  deposits s' = deposits s ∨ length (deposits s') = S (length (deposits s)).
Proof.
  intros H. destruct H as [| | | |s c a w email r Hv|s o wd evs]; try by left.
  - by right.
  - left. unfold submitted_state. by destruct r.
  - left. by destruct o.
Qed.

Lemma rtc_atomic_deposits (s s' : State) :
  rtc atomic s s' → (length (deposits s) ≤ length (deposits s'))%nat.
Proof.
  induction 1 as [s|s1 s2 s3 H _ IH]; [done|].
  destruct (atomic_deposits _ _ H) as [E|E]; rewrite E in IH; lia.
Qed.

Lemma rtc_atomic_src (s s' : State) :
  rtc atomic s s' → deposits s' = deposits s → rtc atomic_src s s'.
Proof.
  induction 1 as [s|s1 s2 s3 H Hrest IH]; intros E; [apply rtc_refl|].
  pose proof (rtc_atomic_deposits _ _ Hrest) as Hlen.
  destruct (atomic_deposits _ _ H) as [E2|E2].
  - eapply rtc_l; [by split|]. apply IH. by rewrite E2.
  - rewrite E, E2 in Hlen. lia.
Qed.

Lemma deposits_body_fold (client : Client) (l : list (nat * Withdrawal))
    (s : State) :
  deposits (body_fold client l s) = deposits s.
Proof.
  revert s. induction l as [|wd l IH]; intros s; [done|].
  rewrite body_fold_cons, IH. unfold body_state.
  by destruct (body_result client wd s).1.
Qed.

Lemma step_deposits (client : Client) (s : State) (op : Op) :
  is_deposit op = false → deposits (step client s op) = deposits s.
Proof.
  intros Hop. unfold step. destruct op as [c|c e|c a|c a| |id]; [| |done| | |];
    cbn [perform].
  - rewrite ignore_state. unfold createWallet. unfold_M.
    by destruct (wallets s !! c).
  - rewrite ignore_state. unfold linkPayPal. unfold_M.
    by destruct (wallets s !! c).
  - rewrite ignore_state.
    destruct (validated_cases c a s) as [(w & email & Hv)|Hinv].
    + rewrite (requestWithdrawal_run client c a w email s Hv). cbn [snd].
      unfold submitted_state. by destruct (payoutResult_of _).
    + by destruct (requestWithdrawal_rejected client c a s Hinv) as [m ->].
  - rewrite updateWithdrawalStatuses_run. cbn [snd]. unfold logged at 1.
    cbn [deposits]. by rewrite deposits_body_fold.
  - rewrite ignore_state.
    destruct (withdrawals s !! id) as [w|] eqn:Hw;
      [|by rewrite (forceCheckWithdrawal_not_found client id s Hw)].
    destruct (decide (status w = PROCESSING)) as [Hst|Hst];
      [|by rewrite (forceCheckWithdrawal_not_processing client id w s Hw Hst)].
    destruct (truthy (paypalBatchId w)) as [b|] eqn:Hb;
      [|by rewrite (forceCheckWithdrawal_no_batch client id w s Hw Hst Hb)].
    rewrite (forceCheckWithdrawal_run client id w b s Hw Hst Hb).
    destruct (payoutStatus_of _ _) as [e|ps]; [done|].
    destruct (ps_items ps) as [|item rest]; [done|]. cbn [snd].
    by destruct (item_outcome item).
Qed.

Lemma run_deposits (client : Client) (ops : list Op) (s : State) :
  Forall (λ op, is_deposit op = false) ops →
  deposits (run client ops s) = deposits s.
Proof.
  intros H. revert s. induction H as [|op ops Hop _ IH]; intros s; [done|].
  simpl. by rewrite IH, step_deposits.
Qed.

Lemma run_atomic_src (client : Client) (ops : list Op) (s : State) :
  Forall (λ op, is_deposit op = false) ops →
  rtc atomic_src s (run client ops s).
Proof.
  intros H. apply rtc_atomic_src; [apply run_atomic | by apply run_deposits].
Qed.

Lemma cons_neq {A} (x : A) (l : list A) : x :: l ≠ l.
Proof. intros E. apply (f_equal length) in E. simpl in E. lia. Qed.

(** ** Balances never go negative *)

Lemma atomic_src_nonnegative (s s' : State) :
  atomic_src s s' → nonnegative s → nonnegative s'.
Proof.
  intros [H Hdep] [Hbal Hamt].
  destruct H as [s evs Hevs|s c Hc|s c e w Hw|s c a w Hw
                |s c a w email r Hv|s o wd evs Hrow Hst Hevs].
  - done.
  - split; [|done]. intros c' w' Hw'. cbn [wallets] in Hw'.
    apply lookup_insert_Some in Hw' as [[_ <-]|[_ Hw']]; [done | by eapply Hbal].
  - split; [|done]. intros c' w' Hw'. cbn [wallets] in Hw'.
    apply lookup_insert_Some in Hw' as [[_ <-]|[_ Hw']];
      [exact (Hbal c w Hw) | by eapply Hbal].
  - by apply cons_neq in Hdep.
  - destruct Hv as (Ha & Hw & He & Hb). pose proof (Hbal c w Hw) as Hw0.
    unfold submitted_state. destruct r as [e|pr]; cbv zeta; split;
      cbn [wallets withdrawals].
    + intros c' w' Hw'. rewrite insert_insert_eq in Hw'.
      apply lookup_insert_Some in Hw' as [[_ <-]|[_ Hw']];
        [cbn; lia | by eapply Hbal].
    + intros i x Hx. rewrite insert_insert_eq in Hx.
      apply lookup_insert_Some in Hx as [[_ <-]|[_ Hx]];
        [cbn; lia | by eapply Hamt].
    + intros c' w' Hw'.
      apply lookup_insert_Some in Hw' as [[_ <-]|[_ Hw']];
        [cbn; lia | by eapply Hbal].
    + intros i x Hx. rewrite insert_insert_eq in Hx.
      apply lookup_insert_Some in Hx as [[_ <-]|[_ Hx]];
        [cbn; lia | by eapply Hamt].
  - pose proof (Hamt _ _ Hrow) as Ha. destruct o as [| |r]; [done | |]; split;
      cbn [apply_outcome wallets withdrawals settled].
    + done.
    + intros i x Hx.
      apply lookup_insert_Some in Hx as [[_ <-]|[_ Hx]]; [done | by eapply Hamt].
    + intros c' w' Hw'. unfold credit in Hw'.
      destruct (wallets s !! creatorId wd.2) as [wl|] eqn:Hwl; [|by eapply Hbal].
      apply lookup_insert_Some in Hw' as [[_ <-]|[_ Hw']]; [|by eapply Hbal].
      pose proof (Hbal _ _ Hwl). cbn. lia.
    + intros i x Hx.
      apply lookup_insert_Some in Hx as [[_ <-]|[_ Hx]]; [done | by eapply Hamt].
Qed.

(** X10. No operation of the wallet service drives a balance below zero:
    from a ledger without negative balances and without negative withdrawal
    amounts, every sequence of wallet creations, links, withdrawal requests,
    scheduled updates and forced checks ends in such a ledger. *)
Theorem balances_stay_nonnegative (client : Client) (ops : list Op) (s : State) :
  Forall (λ op, is_deposit op = false) ops →
  (∀ c w, wallets s !! c = Some w → 0 ≤ balance w) →
  (∀ i x, withdrawals s !! i = Some x → 0 ≤ amount x) →
  (∀ c w, wallets (run client ops s) !! c = Some w → 0 ≤ balance w)
  ∧ (∀ i x, withdrawals (run client ops s) !! i = Some x → 0 ≤ amount x).
Proof.
  intros Hops Hbal Hamt.
  assert (Hn : nonnegative s) by done.
  pose proof (run_atomic_src client ops s Hops) as Hrtc.
  induction Hrtc as [s|s1 s2 s3 H _ IH]; [done|].
  apply IH; by destruct (atomic_src_nonnegative _ _ H Hn).
Qed.

Lemma balances_stay_nonnegative_witness :
  let s' := run accepting_client
              [RequestWithdrawal "alice" 100; UpdateWithdrawalStatuses]
              alice_state in
  ∃ w, wallets s' !! "alice" = Some w ∧ 0 ≤ balance w.
Proof.
  intros s'.
  assert (Hw : wallets s' !! "alice"
               = Some (mkWallet 0 (Some "alice@example.org") true))
    by (vm_compute; reflexivity).
  eexists. split; [exact Hw|].
  destruct (balances_stay_nonnegative accepting_client
              [RequestWithdrawal "alice" 100; UpdateWithdrawalStatuses]
              alice_state) as [Hbal _].
  - by repeat constructor.
  - intros c w Hc. cbn in Hc.
    apply lookup_singleton_Some in Hc as [_ <-]. simpl. lia.
  - intros i x Hx. cbn in Hx. by rewrite lookup_empty in Hx.
  - exact (Hbal "alice" _ Hw).
Defined.

(** ** The conserved quantity *)








(** ** A PROCESSING withdrawal without batch id *)

Lemma body_state_without_batch (client : Client) (wd : nat * Withdrawal)
    (s : State) (i : nat) (w : Withdrawal) :
  withdrawals s !! i = Some w → truthy (paypalBatchId w) = None →
  withdrawals s !! wd.1 = Some wd.2 →
  withdrawals (body_state client wd s) !! i = Some w.
Proof.
  intros Hw Hb Hrow. unfold body_state.
  destruct (decide (i = wd.1)) as [->|Hne].
  - assert (E : wd.2 = w) by congruence.
    unfold body_result. rewrite E, Hb. cbn. rewrite <- E. exact Hrow.
  - by rewrite withdrawals_apply_outcome_ne.
Qed.

Lemma body_fold_without_batch (client : Client) (l : list (nat * Withdrawal))
    (s : State) (i : nat) (w : Withdrawal) :
  NoDup l.*1 →
  (∀ x, x ∈ l → withdrawals s !! x.1 = Some x.2 ∧ status x.2 = PROCESSING) →
  withdrawals s !! i = Some w → truthy (paypalBatchId w) = None →
  withdrawals (body_fold client l s) !! i = Some w.
Proof.
  revert s. induction l as [|wd l IH]; intros s Hnd Hall Hw Hb; [done|].
  rewrite body_fold_cons.
  destruct (Hall wd) as [Hrow _]; [apply list_elem_of_here|].
  destruct (loaded_step client wd l s Hnd Hall) as [Hnd' Hall'].
  apply IH; [done | done | | done]. by apply body_state_without_batch.
Qed.

Lemma step_without_batch (client : Client) (s : State) (op : Op) (i : nat)
    (w : Withdrawal) :
  withdrawals s !! i = Some w → status w = PROCESSING →
  truthy (paypalBatchId w) = None →
  withdrawals (step client s op) !! i = Some w.
Proof.
  intros Hw Hst Hb. unfold step.
  destruct op as [c|c e|c a|c a| |id]; cbn [perform].
  - rewrite ignore_state. unfold createWallet. unfold_M.
    by destruct (wallets s !! c).
  - rewrite ignore_state. unfold linkPayPal. unfold_M.
    by destruct (wallets s !! c).
  - unfold deposit. by destruct (wallets s !! c).
  - rewrite ignore_state.
    destruct (validated_cases c a s) as [(wl & email & Hv)|Hinv].
    + rewrite (requestWithdrawal_run client c a wl email s Hv). cbn [snd].
      pose proof (fresh_withdrawal_id s) as Hfresh.
      unfold submitted_state. destruct (payoutResult_of _); cbv zeta;
        cbn [withdrawals]; rewrite insert_insert_eq, lookup_insert_ne; try done;
        intros E; rewrite E in Hfresh; congruence.
    + by destruct (requestWithdrawal_rejected client c a s Hinv) as [m ->].
  - rewrite updateWithdrawalStatuses_run. cbn [snd]. unfold logged at 1.
    cbn [withdrawals].
    destruct (loaded_processingWithdrawals s) as [Hnd Hall].
    by apply body_fold_without_batch.
  - rewrite ignore_state.
    destruct (withdrawals s !! id) as [x|] eqn:Hx;
      [|by rewrite (forceCheckWithdrawal_not_found client id s Hx)].
    destruct (decide (status x = PROCESSING)) as [Hsx|Hsx];
      [|by rewrite (forceCheckWithdrawal_not_processing client id x s Hx Hsx)].
    destruct (truthy (paypalBatchId x)) as [b|] eqn:Hbx;
      [|by rewrite (forceCheckWithdrawal_no_batch client id x s Hx Hsx Hbx)].
    rewrite (forceCheckWithdrawal_run client id x b s Hx Hsx Hbx).
    assert (Hne : i ≠ id) by (intros ->; congruence).
    destruct (payoutStatus_of _ _) as [e|ps]; [done|].
    destruct (ps_items ps) as [|item rest]; [done|]. cbn [snd].
    by rewrite withdrawals_apply_outcome_ne.
Qed.

(** X12. A withdrawal that is PROCESSING without a batch id stays exactly as
    it is through every sequence of operations: the scheduled update skips
    it, forceCheckWithdrawal throws on it, and nothing else writes it.  Its
    amount therefore stays debited. *)
Theorem processing_without_batch_is_stuck (client : Client) (ops : list Op)
    (s : State) (i : nat) (w : Withdrawal) :
  withdrawals s !! i = Some w → status w = PROCESSING →
  truthy (paypalBatchId w) = None →
  withdrawals (run client ops s) !! i = Some w.
Proof.
  intros Hw Hst Hb. revert s Hw.
  induction ops as [|op ops IH]; intros s Hw; [done|].
  simpl. apply IH. by apply step_without_batch.
Qed.

Lemma processing_without_batch_is_stuck_witness :
  withdrawals (run success_client
                 [UpdateWithdrawalStatuses; ForceCheckWithdrawal 2;
                  UpdateWithdrawalStatuses] settled_state) !! 2%nat
  = Some (alice_withdrawal PROCESSING None None).
Proof.
  apply processing_without_batch_is_stuck; reflexivity.
Defined.

(** Such a row arises from an accepted payout whose answer carries a batch
    header without batch id. *)
Example submitted_without_batch_id :
  let s' := run no_batch_id_client [RequestWithdrawal "alice" 20] alice_state in
  (λ x, (status x, truthy (paypalBatchId x))) <$> withdrawals s' !! 0%nat
  = Some (PROCESSING, None)
  ∧ balance <$> wallets s' !! "alice" = Some 80.
Proof. vm_compute. done. Qed.

(** ** Provider calls of the scheduled update and of the forced check *)

Lemma executes_no_call (evs : list Event) :
  Forall (λ e, is_execute e = false) evs → executes evs = [].
Proof.
  induction 1 as [|e evs He _ IH]; [done|]. unfold executes in *. simpl.
  destruct e; try done.
Qed.

Lemma executes_cons (e : Event) (evs : list Event) :
  executes (e :: evs)
  = match executed e with
    | Some req => req :: executes evs
    | None => executes evs
    end.
Proof. unfold executes. simpl. by destruct (executed e). Qed.

Lemma executes_outcome_events (o : Outcome) (wd : nat * Withdrawal) (s : State) :
  executes (outcome_events o wd s) = [].
Proof. apply executes_no_call, no_call_outcome_events. Qed.

Lemma executes_item_stage (client : Client) (wd : nat * Withdrawal) (s : State) :
  executes (item_stage client wd s).2 = []
  ∨ ∃ i, executes (item_stage client wd s).2 = [PayoutsItemGetRequest i].
Proof.
  unfold item_stage. destruct (truthy (paypalPayoutItemId wd.2)) as [i|];
    [|by left].
  destruct (bool_decide (status wd.2 = PROCESSING)); [|by left].
  right. exists i. destruct (itemStatus_of _); cbn [snd]; [done|].
  rewrite !executes_cons. cbn [executed]. by rewrite executes_outcome_events.
Qed.

Lemma executes_body (client : Client) (wd : nat * Withdrawal) (s : State) :
  (length (executes (body_result client wd s).2) ≤ 2)%nat
  ∧ Forall (λ req, is_post req = false) (executes (body_result client wd s).2).
Proof.
  unfold body_result. destruct (truthy (paypalBatchId wd.2)) as [b|];
    [|split; [cbn; lia | constructor]].
  destruct (payoutStatus_of _ _) as [e|ps];
    [split; [cbn; lia | by repeat constructor]|].
  cbv zeta.
  set (evs := [Console (LogChecking wd.1 b); Execute (PayoutsGetRequest b)]
                ++ _ ++ scan_events wd (length (ps_items ps)) (ps_items ps) s).
  assert (Hevs : executes evs = [PayoutsGetRequest b]).
  { unfold evs. rewrite !executes_app.
    rewrite (executes_no_call (scan_events _ _ _ _))
      by apply no_call_scan_events. done. }
  destruct (scan_outcome wd.2 (length (ps_items ps)) (ps_items ps)); cbn [snd];
    [|rewrite Hevs; split; [cbn; lia | by repeat constructor]..].
  rewrite executes_app, Hevs.
  destruct (executes_item_stage client wd (apply_outcome Unchanged wd evs s))
    as [->|(i & ->)]; split; try (cbn; lia); by repeat constructor.
Qed.

Lemma executes_fold (client : Client) (l : list (nat * Withdrawal)) (s : State) :
  (length (executes (fold_events client l s)) ≤ 2 * length l)%nat
  ∧ Forall (λ req, is_post req = false) (executes (fold_events client l s)).
Proof.
  revert s. induction l as [|wd l IH]; intros s; [by split|].
  cbn [fold_events]. rewrite executes_app, length_app.
  destruct (executes_body client wd s) as [Hlen Hpost].
  destruct (IH (body_state client wd s)) as [Hlen' Hpost'].
  split; [cbn [length]; lia | by apply Forall_app].
Qed.

(** X13. One scheduled update makes at most two provider calls for each
    PROCESSING withdrawal it loaded, and none of them submits a payout; with
    nothing PROCESSING it makes no call and writes nothing. *)
Theorem updateWithdrawalStatuses_call_bound (client : Client) (s : State) :
  ∃ evs,
    trace (updateWithdrawalStatuses client s).2 = trace s ++ evs
    ∧ (length (executes evs) ≤ 2 * length (processingWithdrawals s))%nat
    ∧ Forall (λ req, is_post req = false) (executes evs)
    ∧ (processingWithdrawals s = [] →
       evs = [Console LogStarting; Console (LogFound 0); Console LogUpdateCompleted]
       ∧ ledger (updateWithdrawalStatuses client s).2 = ledger s).
Proof.
  eexists. split; [apply trace_updateWithdrawalStatuses|].
  rewrite !executes_app.
  destruct (executes_fold client (processingWithdrawals s)
              (logged (LogFound (length (processingWithdrawals s)))
                 (logged LogStarting s))) as [Hlen Hpost].
  split; [rewrite !length_app; simpl; lia|].
  split; [repeat (apply Forall_app; split); try done; constructor|].
  intros E. rewrite updateWithdrawalStatuses_run, E. done.
Qed.

Lemma updateWithdrawalStatuses_call_bound_witness :
  ∃ evs,
    trace (updateWithdrawalStatuses rejecting_client alice_state).2 = evs
    ∧ evs = [Console LogStarting; Console (LogFound 0); Console LogUpdateCompleted]
    ∧ ledger (updateWithdrawalStatuses rejecting_client alice_state).2
      = ledger alice_state.
Proof.
  destruct (updateWithdrawalStatuses_call_bound rejecting_client alice_state)
    as (evs & Htr & _ & _ & Hempty).
  exists evs. split; [exact Htr|]. apply Hempty. reflexivity.
Defined.

(** X14. On a PROCESSING withdrawal with a batch id, forceCheckWithdrawal
    makes exactly one provider call, the fetch of that batch, and never asks
    the item endpoint.  When the fetch throws, the call throws with the
    adapter's message behind a fixed prefix; when the batch has no items it
    returns the withdrawal as it is; in both cases no table changes. *)
Theorem forceCheckWithdrawal_provider_paths (client : Client) (id : nat)
    (w : Withdrawal) (b : string) (s : State) :
  withdrawals s !! id = Some w → status w = PROCESSING →
  truthy (paypalBatchId w) = Some b →
  let r := forceCheckWithdrawal client id s in
  (∃ evs, trace r.2 = trace s ++ evs ∧ executes evs = [PayoutsGetRequest b])
  ∧ (∀ err, client (trace s) (PayoutsGetRequest b) = inl err →
     r.1 = inl (BadRequestException
                  ("Failed to check withdrawal status: "
                     +:+ exn_message (getPayoutStatus_error err)))
     ∧ ledger r.2 = ledger s)
  ∧ (∀ resp, client (trace s) (PayoutsGetRequest b) = inr resp →
     default [] (result resp ≫= items) = [] →
     r.1 = inr (StatusCheckCompleted "Status check completed" (id, w))
     ∧ ledger r.2 = ledger s).
Proof.
  intros Hw Hst Hb r. subst r.
  rewrite (forceCheckWithdrawal_run client id w b s Hw Hst Hb).
  split; [|split].
  - destruct (payoutStatus_of _ _) as [e|ps]; [by exists [Execute (PayoutsGetRequest b)]|].
    destruct (ps_items ps) as [|item rest];
      [by exists [Execute (PayoutsGetRequest b)]|].
    cbn [snd]. eexists. split; [apply trace_apply_outcome|].
    rewrite !executes_cons. cbn [executed]. by rewrite executes_outcome_events.
  - intros err ->. done.
  - intros resp -> Hnil. unfold payoutStatus_of. cbn [ps_items].
    by rewrite Hnil.
Qed.

Lemma forceCheckWithdrawal_provider_paths_witness :
  let r := forceCheckWithdrawal rejecting_client 1 processing_state in
  r.1 = inl (BadRequestException
               ("Failed to check withdrawal status: "
                  +:+ "Failed to get payout status (422): Unprocessable"))
  ∧ ledger r.2 = ledger processing_state
  ∧ ledger (forceCheckWithdrawal hollow_client 1 processing_state).2
    = ledger processing_state.
Proof.
  intros r.
  destruct (forceCheckWithdrawal_provider_paths rejecting_client 1
              (alice_withdrawal PROCESSING (Some "B1") (Some "I2")) "B1"
              processing_state eq_refl eq_refl eq_refl) as (_ & Herr & _).
  destruct (forceCheckWithdrawal_provider_paths hollow_client 1
              (alice_withdrawal PROCESSING (Some "B1") (Some "I2")) "B1"
              processing_state eq_refl eq_refl eq_refl) as (_ & _ & Hempty).
  destruct (Herr (mkSdkError (Some 422%nat) (Some "Unprocessable")) eq_refl)
    as [H1 H2].
  destruct (Hempty (mkResponse None) eq_refl eq_refl) as [_ H3].
  by repeat split.
Defined.

(** X15. For a PROCESSING withdrawal that stores no payout item id and whose
    batch holds exactly one item, the forced check and one iteration of the
    scheduled update leave the same ledger, given the same answer of the
    provider. *)
Theorem forceCheck_agrees_with_update (client : Client) (id : nat)
    (w : Withdrawal) (b : string) (resp : Response) (raw : Item) (s : State) :
  withdrawals s !! id = Some w → status w = PROCESSING →
  truthy (paypalBatchId w) = Some b →
  truthy (paypalPayoutItemId w) = None →
  client (trace s) (PayoutsGetRequest b) = inr resp →
  client (trace s ++ [Console (LogChecking id b)]) (PayoutsGetRequest b)
  = inr resp →
  result resp ≫= items = Some [raw] →
  ledger (forceCheckWithdrawal client id s).2
  = ledger (updateWithdrawalStatuses_body client (id, w) s).2.
Proof.
  intros Hw Hst Hb Hi Hc1 Hc2 Hitems.
  rewrite (forceCheckWithdrawal_run client id w b s Hw Hst Hb), Hc1.
  unfold payoutStatus_of. cbn [ps_items]. rewrite Hitems.
  change (default [] (Some [raw])) with [raw]. cbn [map snd].
  rewrite body_state_run. unfold body_state.
  destruct (body_result_fetched client (id, w) b resp s Hb Hc2) as (evs & Hr).
  revert Hr. cbv zeta. rewrite Hitems.
  change (default [] (Some [raw])) with [raw]. cbn [map].
  unfold matchingItem. cbn [snd]. rewrite Hi. cbn [from_option].
  intros Hr. rewrite Hr.
  destruct (item_outcome (normalizeItem raw)) eqn:Ho; cbn [fst snd];
    [|by rewrite !ledger_apply_outcome..].
  unfold item_stage. cbn [snd]. rewrite Hi. cbn [fst snd].
  by rewrite !ledger_apply_outcome.
Qed.

Lemma forceCheck_agrees_with_update_witness :
  ledger (forceCheckWithdrawal refusing_client 1 two_wallet_state).2
  = ledger (updateWithdrawalStatuses_body refusing_client
              (1%nat, alice_withdrawal PROCESSING (Some "B1") None)
              two_wallet_state).2.
Proof.
  apply (forceCheck_agrees_with_update refusing_client 1
           (alice_withdrawal PROCESSING (Some "B1") None) "B1"
           (mkResponse
              (Some (mkResult
                       (Some (mkBatchHeader (Some "B1") (Some "PROCESSING")))
                       (Some [mkItem (Some "I2") (Some "RETURNED") None])
                       None None None)))
           (mkItem (Some "I2") (Some "RETURNED") None) two_wallet_state);
    reflexivity.
Defined.

(** ** A debit followed by a failed reconciliation *)



(** ** Wallets are touched on behalf of their creator only *)

Lemma isolated_apply_outcome (c : string) (o : Outcome) (wd : nat * Withdrawal)
    (evs : list Event) (s : State) :
  no_open_payout c s →
  withdrawals s !! wd.1 = Some wd.2 → status wd.2 = PROCESSING →
  wallets (apply_outcome o wd evs s) !! c = wallets s !! c
  ∧ no_open_payout c (apply_outcome o wd evs s).
Proof.
  intros Hno Hrow Hst. pose proof (Hno _ _ Hrow Hst) as Hne.
  destruct o as [| |r]; cbn [apply_outcome wallets withdrawals].
  - done.
  - split; [done|]. intros i x Hx Hsx. cbn [withdrawals] in Hx.
    destruct (decide (i = wd.1)) as [->|Hi].
    + rewrite lookup_insert_eq in Hx. by inversion Hx; subst.
    + rewrite lookup_insert_ne in Hx by done. by eapply Hno.
  - split.
    + unfold credit. destruct (wallets s !! creatorId wd.2); [|done].
      by rewrite lookup_insert_ne.
    + intros i x Hx Hsx. cbn [withdrawals] in Hx.
      destruct (decide (i = wd.1)) as [->|Hi].
      * rewrite lookup_insert_eq in Hx. by inversion Hx; subst.
      * rewrite lookup_insert_ne in Hx by done. by eapply Hno.
Qed.

Lemma isolated_body_fold (client : Client) (c : string)
    (l : list (nat * Withdrawal)) (s : State) :
  NoDup l.*1 →
  (∀ x, x ∈ l → withdrawals s !! x.1 = Some x.2 ∧ status x.2 = PROCESSING) →
  no_open_payout c s →
  wallets (body_fold client l s) !! c = wallets s !! c
  ∧ no_open_payout c (body_fold client l s).
Proof.
  revert s. induction l as [|wd l IH]; intros s Hnd Hall Hno; [done|].
  rewrite body_fold_cons.
  destruct (Hall wd) as [Hrow Hst]; [apply list_elem_of_here|].
  destruct (loaded_step client wd l s Hnd Hall) as [Hnd' Hall'].
  destruct (isolated_apply_outcome c (body_result client wd s).1 wd
              (body_result client wd s).2 s Hno Hrow Hst) as [Hw Hno'].
  fold (body_state client wd s) in Hw, Hno'.
  destruct (IH _ Hnd' Hall' Hno') as [Hw' Hno''].
  split; [by rewrite Hw'|done].
Qed.

Lemma isolated_step (client : Client) (c : string) (s : State) (op : Op) :
  op_creator op ≠ Some c → no_open_payout c s →
  wallets (step client s op) !! c = wallets s !! c
  ∧ no_open_payout c (step client s op).
Proof.
  intros Hop Hno. unfold step.
  destruct op as [c'|c' e|c' a|c' a| |id]; cbn [perform];
    try (assert (Hc : c' ≠ c) by (intros ->; by apply Hop)).
  - rewrite ignore_state. unfold createWallet. unfold_M.
    destruct (wallets s !! c'); [done|]. cbn [snd wallets].
    by rewrite lookup_insert_ne.
  - rewrite ignore_state. unfold linkPayPal. unfold_M.
    destruct (wallets s !! c'); [|done]. cbn [snd wallets].
    by rewrite lookup_insert_ne.
  - unfold deposit. destruct (wallets s !! c'); [|done]. cbn [snd wallets].
    by rewrite lookup_insert_ne.
  - rewrite ignore_state.
    destruct (validated_cases c' a s) as [(wl & email & Hv)|Hinv].
    + rewrite (requestWithdrawal_run client c' a wl email s Hv). cbn [snd].
      unfold submitted_state. destruct (payoutResult_of _); cbv zeta;
        cbn [wallets]; rewrite ?lookup_insert_ne by done; (split; [done|]);
        intros i x Hx Hsx; cbn [withdrawals] in Hx;
        rewrite insert_insert_eq in Hx;
        (destruct (decide (i = fresh (dom (withdrawals s)))) as [->|Hi];
          [rewrite lookup_insert_eq in Hx; by inversion Hx; subst
          |rewrite lookup_insert_ne in Hx by done; by eapply Hno]).
    + by destruct (requestWithdrawal_rejected client c' a s Hinv) as [m ->].
  - rewrite updateWithdrawalStatuses_run. cbn [snd]. unfold logged at 1.
    destruct (loaded_processingWithdrawals s) as [Hnd Hall].
    cbn [wallets withdrawals]. unfold no_open_payout. cbn [withdrawals].
    apply (isolated_body_fold client c (processingWithdrawals s)
             (logged (LogFound (length (processingWithdrawals s)))
                     (logged LogStarting s))); done.
  - rewrite ignore_state.
    destruct (withdrawals s !! id) as [x|] eqn:Hx;
      [|by rewrite (forceCheckWithdrawal_not_found client id s Hx)].
    destruct (decide (status x = PROCESSING)) as [Hsx|Hsx];
      [|by rewrite (forceCheckWithdrawal_not_processing client id x s Hx Hsx)].
    destruct (truthy (paypalBatchId x)) as [b|] eqn:Hbx;
      [|by rewrite (forceCheckWithdrawal_no_batch client id x s Hx Hsx Hbx)].
    rewrite (forceCheckWithdrawal_run client id x b s Hx Hsx Hbx).
    destruct (payoutStatus_of _ _) as [e|ps]; [done|].
    destruct (ps_items ps) as [|item rest]; [done|]. cbn [snd].
    by apply isolated_apply_outcome.
Qed.

(** X17. The wallet of a creator who has no PROCESSING withdrawal is left
    exactly as it is by every sequence of operations none of which is
    addressed to that creator: requests, links and wallet creations of other
    creators, scheduled updates and forced checks never write it. *)
Theorem wallets_isolated (client : Client) (c : string) (ops : list Op)
    (s : State) :
  no_open_payout c s →
  Forall (λ op, op_creator op ≠ Some c) ops →
  wallets (run client ops s) !! c = wallets s !! c.
Proof.
  intros Hno Hops. revert s Hno. unfold run.
  induction Hops as [|op ops Hop _ IH]; intros s Hno; [done|].
  cbn [fold_left].
  destruct (isolated_step client c s op Hop Hno) as [Hw Hno'].
  by rewrite (IH _ Hno'), Hw.
Qed.

Lemma wallets_isolated_witness :
  wallets (run refusing_client
             [RequestWithdrawal "bob" 5; UpdateWithdrawalStatuses;
              ForceCheckWithdrawal 1; LinkPayPal "bob" "b@example.org"]
             bob_open_state) !! "alice"
  = wallets bob_open_state !! "alice".
Proof.
  apply (wallets_isolated refusing_client "alice").
  - intros i x Hx Hsx. unfold bob_open_state in Hx. cbn [withdrawals] in Hx.
    apply lookup_singleton_Some in Hx as [_ <-]. done.
  - repeat constructor; done.
Defined.
